(** * chihaya: the redis storage driver (storage/redis/redis.go)

  A shallow embedding of the driver.  The Go code talks to a redis
  server through the redigo client library; both are outside the
  repository, so the file starts with a small executable model of
  them (module [redis]): the server's keyspace, the MULTI/EXEC
  session machine, the client connection with its output buffer, and
  the connection pool.  The driver itself ([makeDialFunc], [FindUser],
  [Begin], [Commit], ...) is then translated function by function, with
  the world (server and pool) passed explicitly. *)

From Stdlib Require Import ZArith String Ascii List Lia.
From stdpp Require Import gmap strings list.

Open Scope Z_scope.
Open Scope string_scope.

Set Warnings "-register-all".

(** Go [error] values are identified by their message. *)
Definition Err := string.

(** [time.Duration]: a signed count of nanoseconds. *)
Definition Duration := Z.

(** ** package config *)

Module config.

(** Modelled from the spec: [config.Storage] is declared outside
    src/; the fields are the ones the driver reads (network transport
    and address, key prefix, maximum idle connections, idle timeout,
    optional connect/read/write timeout).  The Go field [ConnTimeout]
    is a pointer compared with [nil]: an [option]. *)
Record Storage := {
  Network : string;
  Addr : string;
  Prefix : string;
  MaxIdleConn : Z;
  IdleTimeout : Duration;
  ConnTimeout : option Duration
}.

End config.

(** ** package storage *)

Module storage.

(** Modelled from the spec: [storage.User] is declared outside src/;
    a user has a unique credential (passkey), total slots and slots in
    use. *)
Record User := {
  Passkey : string;
  Slots : Z;
  SlotsUsed : Z
}.

(** Modelled from the spec: [storage.Torrent] is declared outside
    src/; a torrent has a unique identifier (infohash) and a
    pruned/active status flag.  Its seeder and leecher sets live under
    derived keys of the store. *)
Record Torrent := {
  Infohash : string;
  Status : Z
}.

(** Modelled from the spec: [storage.Peer] is declared outside src/;
    a peer has an identifier, an owning user and transfer counters. *)
Record Peer := {
  ID : string;
  UserID : string;
  Uploaded : Z;
  Downloaded : Z;
  Left : Z
}.

(** Modelled from the spec: [storage.ErrTxDone] is declared outside
    src/; it is the TransactionClosedError of the spec. *)
Definition ErrTxDone : Err :=
  "storage: Transaction has already been committed or rolled back".

End storage.

(** ** The redis server and the redigo client (external to the repository) *)

Module redis.

(** A command as redigo writes it on the wire: the command name followed
    by its arguments, each one a bulk string of its own.  The name is
    sent verbatim, whatever characters it holds. *)
Record Command := {
  name : string;
  args : list string
}.

(** A reply of the server, as redigo hands it to the caller. *)
Inductive Reply :=
| Status (s : string)
| Error (e : Err)
| Integer (z : Z)
| Bulk (s : string)
| Nil
| Array (l : list Reply).

(** *** The server's keyspace *)

(** The values the driver's keys hold: flat field-value records
    (hashes) for users and torrents, sets for swarm membership. *)
Inductive Value :=
| VHash (h : gmap string string)
| VSet (s : gset string).

Abbreviation Store := (gmap string Value).

Definition WRONGTYPE : Err :=
  "WRONGTYPE Operation against a key holding the wrong kind of value".

(** The reply of HGETALL: alternating field names and values. *)
Definition flat (h : gmap string string) : list Reply :=
  flat_map (fun fv => [Bulk (fst fv); Bulk (snd fv)]) (map_to_list h).

(** The command table: the commands the driver and the pool issue, and
    HSET, with the number of arguments each takes.  The model's server
    knows no other name. *)
Definition arity (n : string) : option nat :=
  if String.eqb n "PING" then Some 0%nat
  else if String.eqb n "MULTI" then Some 0%nat
  else if String.eqb n "EXEC" then Some 0%nat
  else if String.eqb n "DISCARD" then Some 0%nat
  else if String.eqb n "HGETALL" then Some 1%nat
  else if String.eqb n "EXISTS" then Some 1%nat
  else if String.eqb n "HSET" then Some 3%nat
  else None.

(** The server's check of a command before it runs or queues it. *)
Definition rejected (c : Command) : option Err :=
  match arity (name c) with
  | None => Some ("ERR unknown command '" +:+ name c +:+ "'")
  | Some n =>
      if Nat.eqb (length (args c)) n then None
      else Some ("ERR wrong number of arguments for '" +:+ name c +:+ "' command")
  end.

(** The effect of one data command on the keyspace. *)
Definition run (c : Command) (db : Store) : Store * Reply :=
  match args c with
  | [] =>
      if String.eqb (name c) "PING" then (db, Status "PONG")
      else (db, Error "ERR syntax error")
  | [k] =>
      if String.eqb (name c) "HGETALL" then
        match db !! k with
        | None => (db, Array [])
        | Some (VHash h) => (db, Array (flat h))
        | Some (VSet _) => (db, Error WRONGTYPE)
        end
      else if String.eqb (name c) "EXISTS" then
        match db !! k with
        | None => (db, Integer 0)
        | Some _ => (db, Integer 1)
        end
      else (db, Error "ERR syntax error")
  | [k; f; v] =>
      if String.eqb (name c) "HSET" then
        match db !! k with
        | None => (<[k := VHash {[f := v]}]> db, Integer 1)
        | Some (VHash h) =>
            (<[k := VHash (<[f := v]> h)]> db,
             Integer (match h !! f with None => 1 | Some _ => 0 end))
        | Some (VSet _) => (db, Error WRONGTYPE)
        end
      else (db, Error "ERR syntax error")
  | _ => (db, Error "ERR syntax error")
  end.

Fixpoint run_all (cs : list Command) (db : Store) : Store * list Reply :=
  match cs with
  | [] => (db, [])
  | c :: cs' =>
      let (db1, r) := run c db in
      let (db2, rs) := run_all cs' db1 in
      (db2, r :: rs)
  end.

(** *** The MULTI/EXEC session machine of one server connection *)

(** [queued = None]: the session is not inside MULTI.  [dirty]: a
    command was rejected while queuing, so EXEC will abort. *)
Record Session := {
  queued : option (list Command);
  dirty : bool
}.

Definition clean : Session := {| queued := None; dirty := false |}.

(** The server receives one command on a session. *)
Definition serve (c : Command) (s : Session) (db : Store)
  : Session * Store * Reply :=
  match rejected c with
  | Some e =>
      (match queued s with
       | Some q => {| queued := Some q; dirty := true |}
       | None => s
       end, db, Error e)
  | None =>
      if String.eqb (name c) "MULTI" then
        match queued s with
        | Some _ => (s, db, Error "ERR MULTI calls can not be nested")
        | None => ({| queued := Some []; dirty := false |}, db, Status "OK")
        end
      else if String.eqb (name c) "EXEC" then
        match queued s with
        | None => (s, db, Error "ERR EXEC without MULTI")
        | Some q =>
            if dirty s then
              (clean, db,
               Error "EXECABORT Transaction discarded because of previous errors.")
            else
              let (db', rs) := run_all q db in (clean, db', Array rs)
        end
      else if String.eqb (name c) "DISCARD" then
        match queued s with
        | None => (s, db, Error "ERR DISCARD without MULTI")
        | Some _ => (clean, db, Status "OK")
        end
      else
        match queued s with
        | Some q => ({| queued := Some (q ++ [c])%list; dirty := dirty s |}, db, Status "QUEUED")
        | None => let (db', r) := run c db in (s, db', r)
        end
  end.

Fixpoint serve_all (cs : list Command) (s : Session) (db : Store)
  : Session * Store * list Reply :=
  match cs with
  | [] => (s, db, [])
  | c :: cs' =>
      let '(s1, db1, r) := serve c s db in
      let '(s2, db2, rs) := serve_all cs' s1 db1 in
      (s2, db2, r :: rs)
  end.

(** *** The redigo client *)

(** A Go call that returns [(value, error)] with exactly one of them
    set. *)
Inductive result (A : Type) :=
| Ok (a : A)
| Fail (e : Err).
Arguments Ok {A} a.
Arguments Fail {A} e.

(** A client connection, as the handle [Pool.Get] returns.  [err]: the
    connection is in an error state (the dial failed, it was closed, or
    it broke) and a round trip on it returns that error.  [pending]:
    the commands written by [Send] and not yet flushed to the server.
    [session]: the server's side of the connection.  [closed]: the
    handle holds no connection of the pool: it was given back, or the
    dial failed and there never was one. *)
Record Conn := {
  err : option Err;
  pending : list Command;
  session : Session;
  closed : bool;
  readTimeout : Duration;
  writeTimeout : Duration
}.

(** The world outside the driver.  [db]: the server's keyspace.
    [wire]: every command the server has received, in order.
    [borrowed]: the connections the pool has handed out and not yet
    got back (its count of active connections).  [net]: whether dialling an address with a connect
    timeout ([0]: none, the transport's default) fails. *)
Record World := {
  db : Store;
  wire : list Command;
  borrowed : nat;
  net : string -> string -> Duration -> option Err
}.

Definition errConnClosed : Err := "redigo: connection closed".
Definition ErrNil : Err := "redigo: nil returned".

(** The handle [Get] returns when it could not get a connection: every
    operation on it returns the error, and closing it does nothing. *)
Definition errorConnection (e : Err) : Conn :=
  {| err := Some e; pending := []; session := clean; closed := true;
     readTimeout := 0; writeTimeout := 0 |}.

(** [redis.DialTimeout]: connect with [connectTimeout]; the connection
    then reads and writes with [readTimeout] and [writeTimeout]. *)
Definition DialTimeout (network address : string)
  (connectTimeout readTimeout writeTimeout : Duration) (w : World) : result Conn :=
  match net w network address connectTimeout with
  | Some e => Fail e
  | None =>
      Ok {| err := None; pending := []; session := clean; closed := false;
            readTimeout := readTimeout; writeTimeout := writeTimeout |}
  end.

(** [redis.Dial]: connect with no timeout at all. *)
Definition Dial (network address : string) (w : World) : result Conn :=
  DialTimeout network address 0 0 0 w.

(** [Conn.Send]: write the command to the output buffer.  A handle
    without a connection returns its error; a connection takes the
    command whatever its error state, since nothing is sent yet.  (The
    buffer of the model has no size: redigo's flushes by itself once
    4096 bytes are written.) *)
Definition Send (c : Conn) (commandName : string) (arguments : list string)
  : Conn * option Err :=
  if closed c then
    (c, Some match err c with Some e => e | None => errConnClosed end)
  else
    ({| err := err c;
        pending := (pending c ++ [{| name := commandName; args := arguments |}])%list;
        session := session c; closed := closed c;
        readTimeout := readTimeout c; writeTimeout := writeTimeout c |}, None).

Fixpoint first_error (rs : list Reply) : option Err :=
  match rs with
  | [] => None
  | Error e :: _ => Some e
  | _ :: rs' => first_error rs'
  end.

(** [Conn.Do]: flush the output buffer followed by this command, read
    one reply per command, return the last reply and the first error
    reply.  On a connection in the error state the round trip fails;
    the model returns the error the connection carries.  A connection
    that is not in the error state does not break during the call. *)
Definition Do (c : Conn) (commandName : string) (arguments : list string) (w : World)
  : Conn * World * (Reply * option Err) :=
  match err c with
  | Some e => (c, w, (Nil, Some e))
  | None =>
      let out := (pending c ++ [{| name := commandName; args := arguments |}])%list in
      let '(s, db', rs) := serve_all out (session c) (db w) in
      ({| err := None; pending := []; session := s; closed := closed c;
          readTimeout := readTimeout c; writeTimeout := writeTimeout c |},
       {| db := db'; wire := (wire w ++ out)%list; borrowed := borrowed w; net := net w |},
       (List.last rs Nil, first_error rs))
  end.

(** The pooled handle remembers whether it is inside MULTI: the flag is
    set when MULTI is written and cleared when EXEC or DISCARD is.
    Here it is read off the commands still buffered, and the server's
    session for those already flushed. *)
Fixpoint client_state (cs : list Command) (m : bool) : bool :=
  match cs with
  | [] => m
  | c :: cs' =>
      client_state cs'
        (if String.eqb (name c) "MULTI" then true
         else if String.eqb (name c) "EXEC" then false
         else if String.eqb (name c) "DISCARD" then false
         else m)
  end.

Definition in_multi (c : Conn) : bool :=
  client_state (pending c)
    match queued (session c) with
    | Some _ => true
    | None => false
    end.

(** [Conn.Close] on a pooled connection: inside MULTI it writes DISCARD,
    then flushes the output buffer (nothing goes out when the buffer is
    empty, or when the connection is in the error state), and the
    connection goes back to the pool.  Closing a handle that holds no
    connection does nothing. *)
Definition Close (c : Conn) (w : World) : Conn * World :=
  if closed c then (c, w)
  else
    let handle :=
      {| err := Some errConnClosed; pending := []; session := clean; closed := true;
         readTimeout := readTimeout c; writeTimeout := writeTimeout c |} in
    let out :=
      (pending c
       ++ (if in_multi c then [{| name := "DISCARD"; args := [] |}] else []))%list in
    match err c, out with
    | None, _ :: _ =>
        let '(_, db', _) := serve_all out (session c) (db w) in
        (handle,
         {| db := db'; wire := (wire w ++ out)%list;
            borrowed := Nat.pred (borrowed w); net := net w |})
    | _, _ =>
        (handle,
         {| db := db w; wire := wire w; borrowed := Nat.pred (borrowed w); net := net w |})
    end.

(** [redis.Pool] at its first borrows: the idle list is empty, so [Get]
    dials and the liveness probe, which the pool runs on an idle
    connection before reusing it, has nothing to test. *)
Record Pool := {
  MaxIdle : Z;
  IdleTimeout : Duration;
  DialFunc : World -> result Conn;
  TestOnBorrow : Conn -> World -> Conn * World * option Err
}.

(** [Pool.Get] always returns a handle.  When the dial succeeds the
    pool counts one more connection out; when it fails the count stays
    and the handle is the error connection. *)
Definition Get (p : Pool) (w : World) : Conn * World :=
  match DialFunc p w with
  | Ok c =>
      (c, {| db := db w; wire := wire w; borrowed := S (borrowed w); net := net w |})
  | Fail e => (errorConnection e, w)
  end.

(** [redis.Values]. *)
Definition Values (r : Reply * option Err) : result (list Reply) :=
  match snd r with
  | Some e => Fail e
  | None =>
      match fst r with
      | Array l => Ok l
      | Nil => Fail ErrNil
      | Error e => Fail e
      | _ => Fail "redigo: unexpected type for Values"
      end
  end.

(** [strconv.ParseBool]. *)
Definition ParseBool (s : string) : option bool :=
  if existsb (String.eqb s) ["1"; "t"; "T"; "TRUE"; "true"; "True"] then Some true
  else if existsb (String.eqb s) ["0"; "f"; "F"; "FALSE"; "false"; "False"] then Some false
  else None.

(** [redis.Bool]. *)
Definition Bool (r : Reply * option Err) : result bool :=
  match snd r with
  | Some e => Fail e
  | None =>
      match fst r with
      | Integer z => Ok (negb (z =? 0)%Z)
      | Bulk s =>
          match ParseBool s with
          | Some b => Ok b
          | None => Fail "strconv.ParseBool: invalid syntax"
          end
      | Nil => Fail ErrNil
      | Error e => Fail e
      | _ => Fail "redigo: unexpected type for Bool"
      end
  end.

(** [strconv.ParseInt(s, 10, 64)]: an optional sign, then one or more
    decimal digits, the value within int64. *)
Definition digit (a : ascii) : option Z :=
  let n := Z.of_N (N_of_ascii a) in
  if ((48 <=? n) && (n <=? 57))%Z then Some (n - 48) else None.

Fixpoint digits (s : string) (acc : Z) : option Z :=
  match s with
  | EmptyString => Some acc
  | String a s' =>
      match digit a with
      | Some d => digits s' (10 * acc + d)
      | None => None
      end
  end.

Definition unsigned (s : string) : option Z :=
  match s with
  | EmptyString => None
  | _ => digits s 0
  end.

Definition ParseInt (s : string) : option Z :=
  let v :=
    match s with
    | String a s' =>
        if Ascii.eqb a "-"%char then Z.opp <$> unsigned s'
        else if Ascii.eqb a "+"%char then unsigned s'
        else unsigned s
    | EmptyString => None
    end in
  match v with
  | Some z => if ((- 2 ^ 63 <=? z) && (z <? 2 ^ 63))%Z then Some z else None
  | None => None
  end.

Definition cannotConvert : Err := "redigo: Scan cannot convert".

(** How [ScanStruct] stores a reply value into a field of a struct
    [T]: string fields take a bulk string as it is, integer fields
    parse it. *)
Definition assignString {T : Type} (set : string -> T -> T) (s : Reply) (d : T)
  : result T :=
  match s with
  | Bulk b => Ok (set b d)
  | _ => Fail cannotConvert
  end.

Definition assignInt {T : Type} (set : Z -> T -> T) (s : Reply) (d : T)
  : result T :=
  match s with
  | Bulk b =>
      match ParseInt b with
      | Some z => Ok (set z d)
      | None => Fail ("strconv.ParseInt: parsing " +:+ b +:+ ": invalid syntax")
      end
  | Integer z => Ok (set z d)
  | _ => Fail cannotConvert
  end.

(** The fields of a struct, by name. *)
Definition structSpec (T : Type) := list (string * (Reply -> T -> result T)).

Definition fieldSpec {T : Type} (ss : structSpec T) (n : string)
  : option (Reply -> T -> result T) :=
  snd <$> List.find (fun f => String.eqb (fst f) n) ss.

Fixpoint scan_pairs {T : Type} (ss : structSpec T) (src : list Reply) (d : T)
  : result T :=
  match src with
  | n :: s :: rest =>
      match s with
      | Nil => scan_pairs ss rest d
      | _ =>
          match n with
          | Bulk nm =>
              match fieldSpec ss nm with
              | None => scan_pairs ss rest d
              | Some assign =>
                  match assign s d with
                  | Fail e => Fail e
                  | Ok d' => scan_pairs ss rest d'
                  end
              end
          | _ => Fail "redigo: ScanStruct key not a bulk string value"
          end
      end
  | _ => Ok d
  end.

(** [redis.ScanStruct]: scan alternating names and values into a
    struct.  A nil value leaves its field alone, a name the struct does
    not have is skipped, a value that does not convert is an error. *)
Definition ScanStruct {T : Type} (ss : structSpec T) (src : list Reply) (dest : T)
  : result T :=
  if Nat.even (length src) then scan_pairs ss src dest
  else Fail "redigo: ScanStruct expects even number of values in values".

End redis.

Import redis.

(** Modelled from the spec: the fields of [storage.User] that
    [ScanStruct] fills, under their Go names. *)
Definition User_spec : structSpec storage.User :=
  [("Passkey", assignString (fun v u =>
      {| storage.Passkey := v; storage.Slots := storage.Slots u;
         storage.SlotsUsed := storage.SlotsUsed u |}));
   ("Slots", assignInt (fun v u =>
      {| storage.Passkey := storage.Passkey u; storage.Slots := v;
         storage.SlotsUsed := storage.SlotsUsed u |}));
   ("SlotsUsed", assignInt (fun v u =>
      {| storage.Passkey := storage.Passkey u; storage.Slots := storage.Slots u;
         storage.SlotsUsed := v |}))].

(** Modelled from the spec: the fields of [storage.Torrent] that
    [ScanStruct] fills, under their Go names. *)
Definition Torrent_spec : structSpec storage.Torrent :=
  [("Infohash", assignString (fun v t =>
      {| storage.Infohash := v; storage.Status := storage.Status t |}));
   ("Status", assignInt (fun v t =>
      {| storage.Infohash := storage.Infohash t; storage.Status := v |}))].

(** The Go zero values [&storage.User{}] and [&storage.Torrent{}]. *)
Definition User_zero : storage.User :=
  {| storage.Passkey := ""; storage.Slots := 0; storage.SlotsUsed := 0 |}.

Definition Torrent_zero : storage.Torrent :=
  {| storage.Infohash := ""; storage.Status := 0 |}.

(** ** package redis of the repository: the driver *)

(** [makeDialFunc]: the dial function the pool is given. *)
Definition makeDialFunc (conf : config.Storage) : World -> result Conn :=
  fun w =>
    let r :=
      match config.ConnTimeout conf with
      | Some timeout =>
          DialTimeout (config.Network conf) (config.Addr conf)
            timeout (* Connect Timeout *)
            timeout (* Read Timeout *)
            timeout (* Write Timeout *)
            w
      | None => Dial (config.Network conf) (config.Addr conf) w
      end in
    match r with
    | Fail e => Fail e
    | Ok conn => Ok conn
    end.

(** [testOnBorrow]: the liveness probe; the time argument is unused. *)
Definition testOnBorrow (c : Conn) (w : World) : Conn * World * option Err :=
  let '(c', w', r) := Do c "PING" [] w in (c', w', snd r).

(** [DS]: the configuration and the embedded pool. *)
Record DS := {
  ds_conf : config.Storage;
  ds_Pool : Pool
}.

(** [driver.New]. *)
Definition New (conf : config.Storage) : DS :=
  {| ds_conf := conf;
     ds_Pool := {| MaxIdle := config.MaxIdleConn conf;
                   IdleTimeout := config.IdleTimeout conf;
                   DialFunc := makeDialFunc conf;
                   TestOnBorrow := testOnBorrow |} |}.

(** What a lookup returns: [(entity, found, error)]. *)
Definition Lookup (A : Type) : Type := option A * bool * option Err.

(** [DS.FindUser].  The deferred [conn.Close()] runs on every return. *)
Definition FindUser (ds : DS) (passkey : string) (w : World)
  : World * Lookup storage.User :=
  let (conn, w1) := Get (ds_Pool ds) w in
  let key := config.Prefix (ds_conf ds) +:+ "User:" +:+ passkey in
  let '(conn1, w2, r) := Do conn "HGETALL" [key] w1 in
  let ret : Lookup storage.User :=
    match Values r with
    | Fail e => (None, true, Some e)
    | Ok reply =>
        (* If we get nothing back, the user isn't found. *)
        if Nat.eqb (length reply) 0 then (None, false, None)
        else
          match ScanStruct User_spec reply User_zero with
          | Fail e => (None, true, Some e)
          | Ok user => (Some user, true, None)
          end
    end in
  let (_, w3) := Close conn1 w2 in
  (w3, ret).

(** [DS.FindTorrent]. *)
Definition FindTorrent (ds : DS) (infohash : string) (w : World)
  : World * Lookup storage.Torrent :=
  let (conn, w1) := Get (ds_Pool ds) w in
  let key := config.Prefix (ds_conf ds) +:+ "Torrent:" +:+ infohash in
  let '(conn1, w2, r) := Do conn "HGETALL" [key] w1 in
  let ret : Lookup storage.Torrent :=
    match Values r with
    | Fail e => (None, false, Some e)
    | Ok reply =>
        (* If we get nothing back, the torrent isn't found. *)
        if Nat.eqb (length reply) 0 then (None, false, None)
        else
          match ScanStruct Torrent_spec reply Torrent_zero with
          | Fail e => (None, true, Some e)
          | Ok torrent => (Some torrent, true, None)
          end
    end in
  let (_, w3) := Close conn1 w2 in
  (w3, ret).

(** [DS.ClientWhitelisted]. *)
Definition ClientWhitelisted (ds : DS) (peerID : string) (w : World)
  : World * (bool * option Err) :=
  let (conn, w1) := Get (ds_Pool ds) w in
  let key := config.Prefix (ds_conf ds) +:+ "Whitelist:" +:+ peerID in
  let '(conn1, w2, r) := Do conn "EXISTS" [key] w1 in
  let ret :=
    match Bool r with
    | Fail e => (false, Some e)
    | Ok exists_ => (exists_, None)
    end in
  let (_, w3) := Close conn1 w2 in
  (w3, ret).

(** [Tx]: the configuration, the closed flag and the embedded
    connection. *)
Record Tx := {
  tx_conf : config.Storage;
  done : bool;
  tx_Conn : Conn
}.

(** [DS.Begin].  There is no deferred close here. *)
Definition Begin (ds : DS) (w : World) : World * (option Tx * option Err) :=
  let (conn, w1) := Get (ds_Pool ds) w in
  let (conn1, e) := Send conn "MULTI" [] in
  match e with
  | Some e => (w1, (None, Some e))
  | None =>
      (w1, (Some {| tx_conf := ds_conf ds; done := false; tx_Conn := conn1 |}, None))
  end.

(** A Go call either returns or panics. *)
Inductive Outcome (A : Type) :=
| Returns (a : A)
| Panics (msg : string).
Arguments Returns {A} a.
Arguments Panics {A} msg.

(** [Tx.close]. *)
Definition close (tx : Tx) (w : World) : Outcome (Tx * World) :=
  if done tx then Panics "redis: transaction closed twice"
  else
    let (c, w') := Close (tx_Conn tx) w in
    Returns ({| tx_conf := tx_conf tx; done := true; tx_Conn := c |}, w').

(** [Tx.Commit]. *)
Definition Commit (tx : Tx) (w : World) : Outcome (Tx * World * option Err) :=
  if done tx then Returns (tx, w, Some storage.ErrTxDone)
  else
    let '(c, w1, r) := Do (tx_Conn tx) "EXEC" [] w in
    let tx1 := {| tx_conf := tx_conf tx; done := done tx; tx_Conn := c |} in
    match snd r with
    | Some e => Returns (tx1, w1, Some e)
    | None =>
        match close tx1 w1 with
        | Panics msg => Panics msg
        | Returns (tx2, w2) => Returns (tx2, w2, None)
        end
    end.

(** [Tx.Rollback].  Redis doesn't need to rollback. Exec is atomic. *)
Definition Rollback (tx : Tx) (w : World) : Outcome (Tx * World * option Err) :=
  if done tx then Returns (tx, w, Some storage.ErrTxDone)
  else
    match close tx w with
    | Panics msg => Panics msg
    | Returns (tx1, w1) => Returns (tx1, w1, None)
    end.

(** The mutation operations return the transaction and the world they
    leave behind, and the error. *)
Definition Mutation : Type := Tx * World * option Err.

(** [Tx.Snatch]. *)
Definition Snatch (tx : Tx) (user : storage.User) (torrent : storage.Torrent)
  (w : World) : Mutation :=
  if done tx then (tx, w, Some storage.ErrTxDone)
  else (* TODO *) (tx, w, None).

(** [Tx.Unprune]. *)
Definition Unprune (tx : Tx) (t : storage.Torrent) (w : World) : Mutation :=
  if done tx then (tx, w, Some storage.ErrTxDone)
  else
    let key := config.Prefix (tx_conf tx) +:+ "Torrent:" +:+ storage.Infohash t in
    let (c, e) := Send (tx_Conn tx) ("HSET " +:+ key +:+ " Status 0") [] in
    let tx1 := {| tx_conf := tx_conf tx; done := done tx; tx_Conn := c |} in
    match e with
    | Some e => (tx1, w, Some e)
    | None => (tx1, w, None)
    end.

(** [Tx.NewLeecher]. *)
Definition NewLeecher (tx : Tx) (t : storage.Torrent) (p : storage.Peer)
  (w : World) : Mutation :=
  if done tx then (tx, w, Some storage.ErrTxDone)
  else (* TODO *) (tx, w, None).

(** [Tx.RmLeecher]. *)
Definition RmLeecher (tx : Tx) (t : storage.Torrent) (p : storage.Peer)
  (w : World) : Mutation :=
  if done tx then (tx, w, Some storage.ErrTxDone)
  else (* TODO *) (tx, w, None).

(** [Tx.NewSeeder]. *)
Definition NewSeeder (tx : Tx) (t : storage.Torrent) (p : storage.Peer)
  (w : World) : Mutation :=
  if done tx then (tx, w, Some storage.ErrTxDone)
  else (* TODO *) (tx, w, None).

(** [Tx.RmSeeder]. *)
Definition RmSeeder (tx : Tx) (t : storage.Torrent) (p : storage.Peer)
  (w : World) : Mutation :=
  if done tx then (tx, w, Some storage.ErrTxDone)
  else (* TODO *) (tx, w, None).

(** [Tx.IncrementSlots]. *)
Definition IncrementSlots (tx : Tx) (u : storage.User) (w : World) : Mutation :=
  if done tx then (tx, w, Some storage.ErrTxDone)
  else (* TODO *) (tx, w, None).

(** [Tx.DecrementSlots]. *)
Definition DecrementSlots (tx : Tx) (u : storage.User) (w : World) : Mutation :=
  if done tx then (tx, w, Some storage.ErrTxDone)
  else (* TODO *) (tx, w, None).

(** ** Definitions the statements use *)

(** The timeout the configuration asks for; [0] is redigo's "none". *)
Definition timeout_of (conf : config.Storage) : Duration :=
  match config.ConnTimeout conf with
  | Some d => d
  | None => 0
  end.

(** The connection a successful dial under [conf] returns, and the
    world after one more connection was handed out. *)
Definition dialled (conf : config.Storage) : Conn :=
  {| err := None; pending := []; session := clean; closed := false;
     readTimeout := timeout_of conf; writeTimeout := timeout_of conf |}.

Definition lend (w : World) : World :=
  {| db := db w; wire := wire w; borrowed := S (borrowed w); net := net w |}.

(** The connection of a transaction right after [Begin]: MULTI is in
    the output buffer. *)
Definition begun (conf : config.Storage) : Conn :=
  {| err := None; pending := [{| name := "MULTI"; args := [] |}];
     session := clean; closed := false;
     readTimeout := timeout_of conf; writeTimeout := timeout_of conf |}.

(** The command [Unprune] writes for a torrent. *)
Definition unprune_command (conf : config.Storage) (t : storage.Torrent) : Command :=
  {| name := "HSET " +:+ (config.Prefix conf +:+ "Torrent:" +:+ storage.Infohash t)
             +:+ " Status 0";
     args := [] |}.

(** The store write that clears a torrent's status: HSET with the key,
    the field and the value as its three arguments. *)
Definition status_write (conf : config.Storage) (t : storage.Torrent) : Command :=
  {| name := "HSET";
     args := [config.Prefix conf +:+ "Torrent:" +:+ storage.Infohash t; "Status"; "0"] |}.

(** The status field stored for a torrent. *)
Definition stored_status (d : Store) (key : string) : option string :=
  match d !! key with
  | Some (VHash h) => h !! "Status"
  | _ => None
  end.

(** A command the server queues or rejects inside MULTI: any command
    of the table but MULTI, EXEC and DISCARD themselves. *)
Definition data_command (c : Command) : Prop :=
  name c <> "MULTI" /\ name c <> "EXEC" /\ name c <> "DISCARD".

(** Commands written by [Unprune], under any configuration. *)
Definition unprune_commands (cs : list Command) : Prop :=
  Forall (fun c => exists conf t, c = unprune_command conf t) cs.

(** The states of an open transaction of the driver: its handle holds a
    connection, and either MULTI and the commands of [Unprune] are
    still in the output buffer, or MULTI has reached the server and
    what is buffered are commands of [Unprune]. *)
Definition open_batch (tx : Tx) : Prop :=
  done tx = false
  /\ closed (tx_Conn tx) = false
  /\ ((session (tx_Conn tx) = clean
       /\ exists cs, pending (tx_Conn tx) = {| name := "MULTI"; args := [] |} :: cs
                     /\ unprune_commands cs)
      \/ ((exists q b, session (tx_Conn tx) = {| queued := Some q; dirty := b |})
          /\ unprune_commands (pending (tx_Conn tx)))).

(** The shape of an open transaction's connection between [Begin] and
    [Commit]: MULTI and then data commands in the output buffer, the
    server's session untouched. *)
Definition batching (tx : Tx) : Prop :=
  done tx = false
  /\ session (tx_Conn tx) = clean
  /\ exists cs, pending (tx_Conn tx) = {| name := "MULTI"; args := [] |} :: cs
                /\ Forall data_command cs.

(** The three components of a lookup's result. *)
Definition entity {A : Type} (r : Lookup A) : option A := fst (fst r).
Definition found {A : Type} (r : Lookup A) : bool := snd (fst r).
Definition failure {A : Type} (r : Lookup A) : option Err := snd r.

(** The keys the lookups read. *)
Definition UserKey (conf : config.Storage) (passkey : string) : string :=
  config.Prefix conf +:+ "User:" +:+ passkey.

Definition TorrentKey (conf : config.Storage) (infohash : string) : string :=
  config.Prefix conf +:+ "Torrent:" +:+ infohash.

(** The store read both lookups open with: a connection from the pool,
    HGETALL on the key, the reply as a list of values. *)
Definition read_record (ds : DS) (key : string) (w : World) : result (list Reply) :=
  let (conn, w1) := Get (ds_Pool ds) w in
  let '(_, _, r) := Do conn "HGETALL" [key] w1 in
  Values r.

(** The server can be dialled under the configured timeout. *)
Definition reachable (conf : config.Storage) (w : World) : Prop :=
  net w (config.Network conf) (config.Addr conf) (timeout_of conf) = None.

(** The state of a record in the keyspace, as a lookup sees it: no
    fields at all, fields that do not scan into the struct, or an
    entity. *)
Inductive Stored (A : Type) :=
| Absent
| Malformed (e : Err)
| Present (a : A).
Arguments Absent {A}.
Arguments Malformed {A} e.
Arguments Present {A} a.

Definition stored {A : Type} (ss : structSpec A) (zero : A) (d : Store) (key : string)
  : option (Stored A) :=
  match d !! key with
  | None => Some Absent
  | Some (VHash h) =>
      match flat h with
      | [] => Some Absent
      | src =>
          match ScanStruct ss src zero with
          | Fail e => Some (Malformed e)
          | Ok a => Some (Present a)
          end
      end
  | Some (VSet _) => None
  end.

(** Modelled from the spec: the keys of a torrent's swarm sets
    ([<prefix>Torrent:<infohash>:Seeders] and [:Leechers]); the driver
    never builds them. *)
Definition SeedersKey (conf : config.Storage) (t : storage.Torrent) : string :=
  config.Prefix conf +:+ "Torrent:" +:+ storage.Infohash t +:+ ":Seeders".

Definition LeechersKey (conf : config.Storage) (t : storage.Torrent) : string :=
  config.Prefix conf +:+ "Torrent:" +:+ storage.Infohash t +:+ ":Leechers".

(** A peer is in the set stored under a key. *)
Definition member (d : Store) (key : string) (p : storage.Peer) : bool :=
  match d !! key with
  | Some (VSet s) => bool_decide (storage.ID p ∈ s)
  | _ => false
  end.

(** The scenario of the spec: one transaction calls [NewSeeder] and
    then [NewLeecher] for the same torrent and peer, and commits. *)
Definition seed_then_leech (ds : DS) (t : storage.Torrent) (p : storage.Peer)
  (w : World) : Outcome (World * option Err) :=
  match Begin ds w with
  | (w1, (None, e)) => Returns (w1, e)
  | (w1, (Some tx, _)) =>
      let '(tx1, w2, e1) := NewSeeder tx t p w1 in
      match e1 with
      | Some e => Returns (w2, Some e)
      | None =>
          let '(tx2, w3, e2) := NewLeecher tx1 t p w2 in
          match e2 with
          | Some e => Returns (w3, Some e)
          | None =>
              match Commit tx2 w3 with
              | Panics msg => Panics msg
              | Returns (_, w4, e3) => Returns (w4, e3)
              end
          end
      end
  end.

(** The slot count stored for a user: [(used, total)]. *)
Definition stored_slots (d : Store) (key : string) : option (Z * Z) :=
  match stored User_spec User_zero d key with
  | Some (Present u) => Some (storage.SlotsUsed u, storage.Slots u)
  | _ => None
  end.

(** The slot bound of the data model, on the stored record. *)
Definition slots_bounded (d : Store) (key : string) : Prop :=
  match stored_slots d key with
  | Some (used, total) => 0 <= used <= total
  | None => True
  end.

(** The transaction and the world a mutation leaves behind. *)
Definition tx_of (m : Mutation) : Tx := fst (fst m).
Definition world_of (m : Mutation) : World := snd (fst m).

(** A transaction that unprunes a torrent and commits. *)
Definition unprune_and_commit (ds : DS) (t : storage.Torrent) (w : World)
  : Outcome (option Tx * World * option Err) :=
  match Begin ds w with
  | (w1, (None, e)) => Returns (None, w1, e)
  | (w1, (Some tx, _)) =>
      let '(tx1, w2, e1) := Unprune tx t w1 in
      match e1 with
      | Some e => Returns (Some tx1, w2, Some e)
      | None =>
          match Commit tx1 w2 with
          | Panics msg => Panics msg
          | Returns (tx2, w3, e2) => Returns (Some tx2, w3, e2)
          end
      end
  end.

(** ** Fixtures: a configuration, two networks, a small keyspace *)

Definition conf0 : config.Storage :=
  {| config.Network := "tcp"; config.Addr := "127.0.0.1:6379";
     config.Prefix := "chihaya:"; config.MaxIdleConn := 3;
     config.IdleTimeout := 240; config.ConnTimeout := None |}.

Definition conf1 : config.Storage :=
  {| config.Network := "tcp"; config.Addr := "127.0.0.1:6379";
     config.Prefix := "chihaya:"; config.MaxIdleConn := 3;
     config.IdleTimeout := 240; config.ConnTimeout := Some 5000 |}.

Definition net_up : string -> string -> Duration -> option Err :=
  fun _ _ _ => None.

Definition net_down : string -> string -> Duration -> option Err :=
  fun _ _ _ => Some "dial tcp 127.0.0.1:6379: connection refused".

Definition db0 : Store :=
  {[ "chihaya:User:abc123" :=
       VHash {[ "Passkey" := "abc123"; "Slots" := "5"; "SlotsUsed" := "5" ]};
     "chihaya:User:bad" :=
       VHash {[ "Passkey" := "bad"; "Slots" := "many" ]};
     "chihaya:Torrent:ih" :=
       VHash {[ "Infohash" := "ih"; "Status" := "1" ]};
     "chihaya:Torrent:broken" :=
       VHash {[ "Infohash" := "broken"; "Status" := "pruned" ]};
     "chihaya:Torrent:ih:Seeders" := VSet {[ "peer1" ]} ]}.

Definition world_up : World :=
  {| db := db0; wire := []; borrowed := 0; net := net_up |}.

Definition world_down : World :=
  {| db := db0; wire := []; borrowed := 0; net := net_down |}.

Definition user0 : storage.User :=
  {| storage.Passkey := "abc123"; storage.Slots := 5; storage.SlotsUsed := 5 |}.

Definition user1 : storage.User :=
  {| storage.Passkey := "idle"; storage.Slots := 5; storage.SlotsUsed := 0 |}.

Definition torrent0 : storage.Torrent :=
  {| storage.Infohash := "ih"; storage.Status := 1 |}.

Definition peer0 : storage.Peer :=
  {| storage.ID := "peer0"; storage.UserID := "abc123";
     storage.Uploaded := 0; storage.Downloaded := 0; storage.Left := 100 |}.

(** An open transaction, as [Begin] makes it, and the same one closed. *)
Definition tx_open : Tx :=
  {| tx_conf := conf0; done := false;
     tx_Conn := {| err := None; pending := [{| name := "MULTI"; args := [] |}];
                   session := clean; closed := false;
                   readTimeout := 0; writeTimeout := 0 |} |}.

Definition tx_closed : Tx :=
  {| tx_conf := conf0; done := true;
     tx_Conn := {| err := Some errConnClosed; pending := [];
                   session := clean; closed := true;
                   readTimeout := 0; writeTimeout := 0 |} |}.

(** An open transaction whose connection has failed since [Begin]. *)
Definition tx_broken : Tx :=
  {| tx_conf := conf0; done := false;
     tx_Conn := {| err := Some "write tcp 127.0.0.1:6379: broken pipe";
                   pending := [{| name := "MULTI"; args := [] |}];
                   session := clean; closed := false;
                   readTimeout := 0; writeTimeout := 0 |} |}.

Definition world_tx : World :=
  {| db := db0; wire := []; borrowed := 1; net := net_up |}.


(** ** Callers: whole transactions *)

(** The key [ClientWhitelisted] checks. *)
Definition WhitelistKey (conf : config.Storage) (peerID : string) : string :=
  config.Prefix conf +:+ "Whitelist:" +:+ peerID.

(** One call of a mutation operation of [Tx], with its arguments. *)
Inductive Op :=
| OpSnatch (u : storage.User) (t : storage.Torrent)
| OpUnprune (t : storage.Torrent)
| OpNewLeecher (t : storage.Torrent) (p : storage.Peer)
| OpRmLeecher (t : storage.Torrent) (p : storage.Peer)
| OpNewSeeder (t : storage.Torrent) (p : storage.Peer)
| OpRmSeeder (t : storage.Torrent) (p : storage.Peer)
| OpIncrementSlots (u : storage.User)
| OpDecrementSlots (u : storage.User).

Definition apply_op (o : Op) (tx : Tx) (w : World) : Mutation :=
  match o with
  | OpSnatch u t => Snatch tx u t w
  | OpUnprune t => Unprune tx t w
  | OpNewLeecher t p => NewLeecher tx t p w
  | OpRmLeecher t p => RmLeecher tx t p w
  | OpNewSeeder t p => NewSeeder tx t p w
  | OpRmSeeder t p => RmSeeder tx t p w
  | OpIncrementSlots u => IncrementSlots tx u w
  | OpDecrementSlots u => DecrementSlots tx u w
  end.

(** A caller making the calls one after the other, giving up at the
    first error. *)
Fixpoint apply_ops (os : list Op) (tx : Tx) (w : World) : Mutation :=
  match os with
  | [] => (tx, w, None)
  | o :: os' =>
      let '(tx1, w1, e) := apply_op o tx w in
      match e with
      | Some e => (tx1, w1, Some e)
      | None => apply_ops os' tx1 w1
      end
  end.

(** A caller's transaction: [Begin], the calls, [Commit]. *)
Definition transact (ds : DS) (os : list Op) (w : World)
  : Outcome (option Tx * World * option Err) :=
  match Begin ds w with
  | (w1, (None, e)) => Returns (None, w1, e)
  | (w1, (Some tx, _)) =>
      let '(tx1, w2, e1) := apply_ops os tx w1 in
      match e1 with
      | Some e => Returns (Some tx1, w2, Some e)
      | None =>
          match Commit tx1 w2 with
          | Panics msg => Panics msg
          | Returns (tx2, w3, e2) => Returns (Some tx2, w3, e2)
          end
      end
  end.

(** The same, given up with [Rollback]. *)
Definition abandon (ds : DS) (os : list Op) (w : World)
  : Outcome (option Tx * World * option Err) :=
  match Begin ds w with
  | (w1, (None, e)) => Returns (None, w1, e)
  | (w1, (Some tx, _)) =>
      let '(tx1, w2, e1) := apply_ops os tx w1 in
      match e1 with
      | Some e => Returns (Some tx1, w2, Some e)
      | None =>
          match Rollback tx1 w2 with
          | Panics msg => Panics msg
          | Returns (tx2, w3, e2) => Returns (Some tx2, w3, e2)
          end
      end
  end.

(** The torrents a list of calls unprunes, in order. *)
Fixpoint unpruned (os : list Op) : list storage.Torrent :=
  match os with
  | [] => []
  | OpUnprune t :: os' => t :: unpruned os'
  | _ :: os' => unpruned os'
  end.

(** The open transaction after [Begin] and calls that unpruned the
    torrents [ts]. *)
Definition batch_tx (conf : config.Storage) (ts : list storage.Torrent) : Tx :=
  {| tx_conf := conf; done := false;
     tx_Conn := {| err := None;
                   pending := {| name := "MULTI"; args := [] |}
                              :: List.map (unprune_command conf) ts;
                   session := clean; closed := false;
                   readTimeout := timeout_of conf; writeTimeout := timeout_of conf |} |}.

(** The server's answer to a command it does not know. *)
Definition unknown_command (c : Command) : Err :=
  "ERR unknown command '" +:+ name c +:+ "'".

(** The world after the server has received more commands. *)
Definition sent (cs : list Command) (w : World) : World :=
  {| db := db w; wire := (wire w ++ cs)%list; borrowed := borrowed w; net := net w |}.

(** Calls for the fixtures. *)
Definition ops_stubs : list Op :=
  [OpNewSeeder torrent0 peer0; OpIncrementSlots user0; OpSnatch user0 torrent0;
   OpRmLeecher torrent0 peer0].

Definition ops_unprune : list Op :=
  [OpNewSeeder torrent0 peer0; OpUnprune torrent0; OpDecrementSlots user0].

(** An open transaction whose buffer was flushed, the transaction after
    it was closed, and the world after a connection was given back. *)
Definition spent_tx (conf : config.Storage) : Tx :=
  {| tx_conf := conf; done := false;
     tx_Conn := {| err := None; pending := []; session := clean; closed := false;
                   readTimeout := timeout_of conf; writeTimeout := timeout_of conf |} |}.

Definition closed_tx (conf : config.Storage) : Tx :=
  {| tx_conf := conf; done := true;
     tx_Conn := {| err := Some errConnClosed; pending := []; session := clean;
                   closed := true;
                   readTimeout := timeout_of conf; writeTimeout := timeout_of conf |} |}.

Definition returned (w : World) : World :=
  {| db := db w; wire := wire w; borrowed := Nat.pred (borrowed w); net := net w |}.
(** ** The dial function *)

(** C9: the pool's dial function is [makeDialFunc conf].  With a
    connect timeout configured, the dial function is
    [DialTimeout] with that one duration as connect, read and write
    timeout; with none configured it is the plain [Dial].  The
    connection it returns reads and writes under the configured
    duration, and a failure is the failure of connecting under it. *)
Theorem makeDialFunc_uniform_timeout (conf : config.Storage) (w : World) :
  DialFunc (ds_Pool (New conf)) w = makeDialFunc conf w
  /\ match config.ConnTimeout conf with
     | Some d =>
         makeDialFunc conf w
         = DialTimeout (config.Network conf) (config.Addr conf) d d d w
     | None =>
         makeDialFunc conf w = Dial (config.Network conf) (config.Addr conf) w
     end
  /\ match makeDialFunc conf w with
     | Ok conn =>
         readTimeout conn = timeout_of conf
         /\ writeTimeout conn = timeout_of conf
         /\ net w (config.Network conf) (config.Addr conf) (timeout_of conf) = None
     | Fail e =>
         net w (config.Network conf) (config.Addr conf) (timeout_of conf) = Some e
     end.
Proof.
  split; [reflexivity|].
  unfold makeDialFunc, timeout_of, Dial, DialTimeout.
  destruct (config.ConnTimeout conf) as [d|].
  - destruct (net w _ _ d) eqn:E; cbn; rewrite ?E; auto.
  - destruct (net w _ _ 0) eqn:E; cbn; rewrite ?E; auto.
Qed.

Example dial_without_timeout :
  makeDialFunc conf0 world_up = Dial "tcp" "127.0.0.1:6379" world_up.
Proof. reflexivity. Qed.

Example dial_with_timeout :
  makeDialFunc conf1 world_up
  = DialTimeout "tcp" "127.0.0.1:6379" 5000 5000 5000 world_up.
Proof. reflexivity. Qed.

(** ** Transactions in a terminal state *)

(** C4: on a closed transaction every operation (the eight mutations,
    [Commit] and [Rollback]) returns [ErrTxDone] at once; the
    transaction, with its output buffer, and the world, with the
    keyspace and the record of what the server received, are returned
    as they were. *)
Theorem closed_tx_rejects_every_operation
  (tx : Tx) (w : World) (u : storage.User) (t : storage.Torrent) (p : storage.Peer) :
  done tx = true ->
  Commit tx w = Returns (tx, w, Some storage.ErrTxDone)
  /\ Rollback tx w = Returns (tx, w, Some storage.ErrTxDone)
  /\ Snatch tx u t w = (tx, w, Some storage.ErrTxDone)
  /\ Unprune tx t w = (tx, w, Some storage.ErrTxDone)
  /\ NewLeecher tx t p w = (tx, w, Some storage.ErrTxDone)
  /\ RmLeecher tx t p w = (tx, w, Some storage.ErrTxDone)
  /\ NewSeeder tx t p w = (tx, w, Some storage.ErrTxDone)
  /\ RmSeeder tx t p w = (tx, w, Some storage.ErrTxDone)
  /\ IncrementSlots tx u w = (tx, w, Some storage.ErrTxDone)
  /\ DecrementSlots tx u w = (tx, w, Some storage.ErrTxDone).
Proof.
  intros Hdone.
  unfold Commit, Rollback, Snatch, Unprune, NewLeecher, RmLeecher, NewSeeder,
    RmSeeder, IncrementSlots, DecrementSlots.
  rewrite Hdone. repeat split.
Qed.

Lemma closed_tx_rejects_every_operation_witness :
  done tx_closed = true
  /\ Commit tx_closed world_up = Returns (tx_closed, world_up, Some storage.ErrTxDone)
  /\ Unprune tx_closed torrent0 world_up = (tx_closed, world_up, Some storage.ErrTxDone).
Proof.
  destruct (closed_tx_rejects_every_operation tx_closed world_up user0 torrent0 peer0
              eq_refl) as (Hc & _ & _ & Hu & _).
  split; [reflexivity | split; assumption].
Defined.

(** [close] on an open transaction returns: it marks the transaction
    and gives the connection back. *)
Lemma close_open (tx : Tx) (w : World) :
  done tx = false ->
  close tx w
  = Returns ({| tx_conf := tx_conf tx; done := true;
                tx_Conn := fst (Close (tx_Conn tx) w) |},
             snd (Close (tx_Conn tx) w)).
Proof.
  intros Hd. unfold close. rewrite Hd.
  destruct (Close (tx_Conn tx) w); reflexivity.
Qed.

(** [Close] gives the connection back, once. *)
Lemma Close_pool (c : Conn) (w : World) :
  net (snd (Close c w)) = net w
  /\ borrowed (snd (Close c w))
     = (if closed c then borrowed w else Nat.pred (borrowed w))
  /\ closed (fst (Close c w)) = true.
Proof.
  unfold Close. destruct (closed c) eqn:E; [cbn; auto|].
  destruct (err c); [cbn; auto|].
  destruct (pending c ++ _)%list; [cbn; auto|].
  destruct (serve_all _ _ _) as [[s d] rs]. cbn. auto.
Qed.

(** With nothing buffered and outside MULTI, or on a connection in the
    error state, [Close] sends nothing. *)
Lemma Close_quiet (c : Conn) (w : World) :
  (pending c = [] /\ queued (session c) = None) \/ err c <> None \/ closed c = true ->
  db (snd (Close c w)) = db w /\ wire (snd (Close c w)) = wire w.
Proof.
  unfold Close, in_multi. intros H.
  destruct (closed c) eqn:E; [cbn; auto|].
  destruct (err c) eqn:He; [cbn; auto|].
  destruct H as [[Hp Hq]|[H|H]]; [|congruence|discriminate].
  rewrite Hp, Hq. cbn. auto.
Qed.

Example Rollback_then_Commit :
  Rollback tx_open world_tx
  = Returns (tx_closed,
             {| db := db0;
                wire := [{| name := "MULTI"; args := [] |};
                         {| name := "DISCARD"; args := [] |}];
                borrowed := 0; net := net_up |}, None)
  /\ Commit tx_closed world_up = Returns (tx_closed, world_up, Some storage.ErrTxDone).
Proof. split; reflexivity. Qed.

(** ** The pool and the connection *)

Lemma Get_New_up (conf : config.Storage) (w : World) :
  reachable conf w ->
  Get (ds_Pool (New conf)) w = (dialled conf, lend w).
Proof.
  unfold reachable, dialled, Get, New, makeDialFunc, Dial, DialTimeout, lend, timeout_of.
  destruct (config.ConnTimeout conf); cbn; intros ->; reflexivity.
Qed.

Lemma Get_New_down (conf : config.Storage) (w : World) (e : Err) :
  net w (config.Network conf) (config.Addr conf) (timeout_of conf) = Some e ->
  Get (ds_Pool (New conf)) w = (errorConnection e, w).
Proof.
  unfold Get, New, makeDialFunc, Dial, DialTimeout, timeout_of.
  destruct (config.ConnTimeout conf); cbn; intros ->; reflexivity.
Qed.

(** [Do] neither closes the handle nor touches the pool. *)
Lemma Do_keeps_handle (c : Conn) (n : string) (a : list string) (w : World) :
  closed (fst (fst (Do c n a w))) = closed c
  /\ borrowed (snd (fst (Do c n a w))) = borrowed w
  /\ net (snd (fst (Do c n a w))) = net w.
Proof.
  unfold Do. destruct (err c); [cbn; auto|].
  destruct (serve_all _ _ _) as [[s d] rs]. cbn. auto.
Qed.

(** A read of a key on a fresh connection: one HGETALL on the wire, the
    keyspace as before. *)
Lemma Do_HGETALL_dialled (conf : config.Storage) (key : string) (w : World) :
  Do (dialled conf) "HGETALL" [key] w
  = (dialled conf,
     {| db := db w;
        wire := (wire w ++ [{| name := "HGETALL"; args := [key] |}])%list;
        borrowed := borrowed w; net := net w |},
     match db w !! key with
     | None => (Array [], None)
     | Some (VHash h) => (Array (flat h), None)
     | Some (VSet _) => (Error WRONGTYPE, Some WRONGTYPE)
     end).
Proof.
  unfold Do, dialled. cbn.
  destruct (db w !! key) as [[h|s]|]; reflexivity.
Qed.

Lemma read_record_New (conf : config.Storage) (key : string) (w : World) :
  reachable conf w ->
  read_record (New conf) key w
  = match db w !! key with
    | None => Ok []
    | Some (VHash h) => Ok (flat h)
    | Some (VSet _) => Fail WRONGTYPE
    end.
Proof.
  intros Hup. unfold read_record. rewrite (Get_New_up _ _ Hup), Do_HGETALL_dialled.
  cbn. destruct (db w !! key) as [[h|s]|]; reflexivity.
Qed.

Lemma read_record_New_down (conf : config.Storage) (key : string) (w : World) (e : Err) :
  net w (config.Network conf) (config.Addr conf) (timeout_of conf) = Some e ->
  read_record (New conf) key w = Fail e.
Proof.
  intros Hdown. unfold read_record. rewrite (Get_New_down _ _ _ Hdown). reflexivity.
Qed.

(** ** The lookups *)

(** Each lookup is its store read followed by the decoding. *)
Lemma FindUser_read (ds : DS) (passkey : string) (w : World) :
  snd (FindUser ds passkey w)
  = match read_record ds (UserKey (ds_conf ds) passkey) w with
    | Fail e => (None, true, Some e)
    | Ok reply =>
        if Nat.eqb (length reply) 0 then (None, false, None)
        else
          match ScanStruct User_spec reply User_zero with
          | Fail e => (None, true, Some e)
          | Ok user => (Some user, true, None)
          end
    end.
Proof.
  unfold FindUser, read_record, UserKey.
  destruct (Get (ds_Pool ds) w) as [conn w1].
  destruct (Do conn "HGETALL" _ w1) as [[conn1 w2] r].
  destruct (Close conn1 w2). reflexivity.
Qed.

Lemma FindTorrent_read (ds : DS) (infohash : string) (w : World) :
  snd (FindTorrent ds infohash w)
  = match read_record ds (TorrentKey (ds_conf ds) infohash) w with
    | Fail e => (None, false, Some e)
    | Ok reply =>
        if Nat.eqb (length reply) 0 then (None, false, None)
        else
          match ScanStruct Torrent_spec reply Torrent_zero with
          | Fail e => (None, true, Some e)
          | Ok torrent => (Some torrent, true, None)
          end
    end.
Proof.
  unfold FindTorrent, read_record, TorrentKey.
  destruct (Get (ds_Pool ds) w) as [conn w1].
  destruct (Do conn "HGETALL" _ w1) as [[conn1 w2] r].
  destruct (Close conn1 w2). reflexivity.
Qed.

(** C6: when the store read fails, [FindUser] returns [(nil, true,
    err)] where [FindTorrent], on the same condition, returns [(nil,
    false, err)]. *)
Theorem failed_read_found_flags_differ
  (ds : DS) (passkey infohash : string) (w : World) (e1 e2 : Err) :
  read_record ds (UserKey (ds_conf ds) passkey) w = Fail e1 ->
  read_record ds (TorrentKey (ds_conf ds) infohash) w = Fail e2 ->
  snd (FindUser ds passkey w) = (None, true, Some e1)
  /\ snd (FindTorrent ds infohash w) = (None, false, Some e2).
Proof.
  intros H1 H2. rewrite FindUser_read, FindTorrent_read, H1, H2. auto.
Qed.

Lemma failed_read_found_flags_differ_witness :
  read_record (New conf0) (UserKey conf0 "abc123") world_down
    = Fail "dial tcp 127.0.0.1:6379: connection refused"
  /\ read_record (New conf0) (TorrentKey conf0 "ih") world_down
    = Fail "dial tcp 127.0.0.1:6379: connection refused"
  /\ snd (FindUser (New conf0) "abc123" world_down)
    = (None, true, Some "dial tcp 127.0.0.1:6379: connection refused")
  /\ snd (FindTorrent (New conf0) "ih" world_down)
    = (None, false, Some "dial tcp 127.0.0.1:6379: connection refused").
Proof.
  split; [reflexivity | split; [reflexivity |]].
  exact (failed_read_found_flags_differ (New conf0) "abc123" "ih" world_down _ _
           eq_refl eq_refl).
Defined.

(** The same on a live server, the keys holding sets: the read fails
    with WRONGTYPE. *)
Example failed_read_wrongtype :
  snd (FindUser (New {| config.Network := "tcp"; config.Addr := "h:1";
                        config.Prefix := "chihaya:Torrent:ih:Seeders";
                        config.MaxIdleConn := 1; config.IdleTimeout := 0;
                        config.ConnTimeout := None |}) "" 
         {| db := {[ "chihaya:Torrent:ih:SeedersUser:" := VSet ∅ ]};
            wire := []; borrowed := 0; net := net_up |})
  = (None, true, Some WRONGTYPE)
  /\ snd (FindTorrent (New conf0) "ih:Seeders" world_up) = (None, false, Some WRONGTYPE).
Proof. split; vm_compute; reflexivity. Qed.

(** A malformed record, in a user's and in a torrent's key: both
    lookups return found = true with the error, against C1 as stated. *)
Lemma malformed_record_reported_found :
  stored User_spec User_zero (db world_up) (UserKey conf0 "bad")
    = Some (Malformed "strconv.ParseInt: parsing many: invalid syntax")
  /\ snd (FindUser (New conf0) "bad" world_up)
    = (None, true, Some "strconv.ParseInt: parsing many: invalid syntax")
  /\ stored Torrent_spec Torrent_zero (db world_up) (TorrentKey conf0 "broken")
    = Some (Malformed "strconv.ParseInt: parsing pruned: invalid syntax")
  /\ snd (FindTorrent (New conf0) "broken" world_up)
    = (None, true, Some "strconv.ParseInt: parsing pruned: invalid syntax").
Proof. repeat split; vm_compute; reflexivity. Qed.

(** C1, amended: a lookup never returns an entity together with an
    error, and [FindTorrent] returns [(nil, false, err)] when its store
    read fails.  When the server can be reached, an absent record (no
    fields) gives [(nil, false, nil)], a malformed record gives [(nil,
    true, DecodeError)] and a record that decodes gives [(entity, true,
    nil)]. *)
Theorem lookup_three_states
  (conf : config.Storage) (passkey infohash : string) (w : World) :
  (failure (snd (FindUser (New conf) passkey w)) = None
   \/ entity (snd (FindUser (New conf) passkey w)) = None)
  /\ (failure (snd (FindTorrent (New conf) infohash w)) = None
      \/ entity (snd (FindTorrent (New conf) infohash w)) = None)
  /\ match read_record (New conf) (TorrentKey conf infohash) w with
     | Fail e => snd (FindTorrent (New conf) infohash w) = (None, false, Some e)
     | Ok _ => True
     end
  /\ (reachable conf w ->
      match stored User_spec User_zero (db w) (UserKey conf passkey) with
      | Some Absent => snd (FindUser (New conf) passkey w) = (None, false, None)
      | Some (Malformed e) => snd (FindUser (New conf) passkey w) = (None, true, Some e)
      | Some (Present u) => snd (FindUser (New conf) passkey w) = (Some u, true, None)
      | None => True
      end
      /\ match stored Torrent_spec Torrent_zero (db w) (TorrentKey conf infohash) with
         | Some Absent => snd (FindTorrent (New conf) infohash w) = (None, false, None)
         | Some (Malformed e) =>
             snd (FindTorrent (New conf) infohash w) = (None, true, Some e)
         | Some (Present t) =>
             snd (FindTorrent (New conf) infohash w) = (Some t, true, None)
         | None => snd (FindTorrent (New conf) infohash w) = (None, false, Some WRONGTYPE)
         end).
Proof.
  rewrite FindUser_read, FindTorrent_read. cbn [ds_conf New].
  split; [|split; [|split]].
  - destruct (read_record _ _ w) as [reply|e]; [|right; reflexivity].
    destruct (Nat.eqb _ _); [left; reflexivity|].
    destruct (ScanStruct _ _ _); [left|right]; reflexivity.
  - destruct (read_record _ _ w) as [reply|e]; [|right; reflexivity].
    destruct (Nat.eqb _ _); [left; reflexivity|].
    destruct (ScanStruct _ _ _); [left|right]; reflexivity.
  - destruct (read_record _ _ w) as [reply|e]; [exact I | reflexivity].
  - intros Hup. rewrite !(read_record_New _ _ _ Hup). unfold stored. split.
    + destruct (db w !! UserKey conf passkey) as [[h|s]|]; [| exact I | reflexivity].
      destruct (flat h) as [|r rs] eqn:E; [reflexivity|].
      cbn [length Nat.eqb].
      destruct (ScanStruct User_spec (r :: rs) User_zero); reflexivity.
    + destruct (db w !! TorrentKey conf infohash) as [[h|s]|]; [| reflexivity | reflexivity].
      destruct (flat h) as [|r rs] eqn:E; [reflexivity|].
      cbn [length Nat.eqb].
      destruct (ScanStruct Torrent_spec (r :: rs) Torrent_zero); reflexivity.
Qed.

Lemma lookup_three_states_witness :
  reachable conf0 world_up
  /\ snd (FindUser (New conf0) "nobody" world_up) = (None, false, None)
  /\ snd (FindTorrent (New conf0) "ih" world_up) = (Some torrent0, true, None).
Proof.
  split; [reflexivity|].
  destruct (lookup_three_states conf0 "nobody" "ih" world_up) as (_ & _ & _ & H).
  exact (H eq_refl).
Defined.

Example FindUser_scenario :
  snd (FindUser (New conf0) "abc123" {| db := ∅; wire := []; borrowed := 0; net := net_up |})
    = (None, false, None)
  /\ snd (FindUser (New conf0) "abc123"
            {| db := {[ "chihaya:User:abc123" :=
                          VHash {[ "Passkey" := "abc123"; "Slots" := "5";
                                   "SlotsUsed" := "0" ]} ]};
               wire := []; borrowed := 0; net := net_up |})
    = (Some {| storage.Passkey := "abc123"; storage.Slots := 5; storage.SlotsUsed := 0 |},
       true, None).
Proof. split; vm_compute; reflexivity. Qed.

(** ** Begin and Commit *)

Lemma Begin_up (conf : config.Storage) (w : World) :
  reachable conf w ->
  Begin (New conf) w
  = (lend w, (Some {| tx_conf := conf; done := false; tx_Conn := begun conf |}, None)).
Proof.
  intros Hup. unfold Begin. rewrite (Get_New_up _ _ Hup). reflexivity.
Qed.

Lemma Begin_down (conf : config.Storage) (w : World) (e : Err) :
  net w (config.Network conf) (config.Addr conf) (timeout_of conf) = Some e ->
  Begin (New conf) w = (w, (None, Some e)).
Proof.
  intros Hdown. unfold Begin. rewrite (Get_New_down _ _ _ Hdown). reflexivity.
Qed.

(** [Commit] never panics: it reaches [close] only when [done] is
    unset. *)
Lemma Commit_returns (tx : Tx) (w : World) :
  exists r, Commit tx w = Returns r.
Proof.
  unfold Commit. destruct (done tx) eqn:Hd; [eauto|].
  destruct (Do (tx_Conn tx) "EXEC" [] w) as [[c w1] r].
  destruct (snd r); [eauto|].
  rewrite close_open by reflexivity. eauto.
Qed.

(** A [Commit] that returns nil has closed the transaction and its
    connection. *)
Lemma Commit_success_closes (tx tx' : Tx) (w w' : World) :
  done tx = false ->
  Commit tx w = Returns (tx', w', None) ->
  done tx' = true /\ closed (tx_Conn tx') = true.
Proof.
  intros Hd. unfold Commit. rewrite Hd.
  destruct (Do (tx_Conn tx) "EXEC" [] w) as [[c w1] r].
  destruct (snd r); [discriminate|].
  rewrite close_open by reflexivity. intros [= <- _]. cbn [done tx_Conn].
  split; [reflexivity|].
  apply Close_pool.
Qed.

(** A failed [Commit] leaves the transaction open and the connection
    with it. *)
Lemma Commit_failure_keeps_open (tx tx' : Tx) (w w' : World) (e : Err) :
  done tx = false ->
  Commit tx w = Returns (tx', w', Some e) ->
  done tx' = false
  /\ closed (tx_Conn tx') = closed (tx_Conn tx)
  /\ borrowed w' = borrowed w.
Proof.
  intros Hd. unfold Commit. rewrite Hd.
  destruct (Do_keeps_handle (tx_Conn tx) "EXEC" [] w) as (Hc & Hb & _).
  destruct (Do (tx_Conn tx) "EXEC" [] w) as [[c w1] r]. cbn in Hc, Hb.
  destruct (snd r).
  - intros [= <- <- _]. cbn. auto.
  - rewrite close_open by reflexivity. discriminate.
Qed.

(** Committing right after [Begin]: MULTI and EXEC go out, the batch is
    empty, the keyspace is as before and the connection is given
    back. *)
Lemma Commit_begun (conf : config.Storage) (w : World) :
  Commit {| tx_conf := conf; done := false; tx_Conn := begun conf |} w
  = Returns
      ({| tx_conf := conf; done := true;
          tx_Conn := {| err := Some errConnClosed; pending := []; session := clean;
                        closed := true; readTimeout := timeout_of conf;
                        writeTimeout := timeout_of conf |} |},
       {| db := db w;
          wire := (wire w ++ [{| name := "MULTI"; args := [] |};
                              {| name := "EXEC"; args := [] |}])%list;
          borrowed := Nat.pred (borrowed w); net := net w |},
       None).
Proof. reflexivity. Qed.

(** ** The swarm operations *)

(** The scenario of the spec on a keyspace where the peer is in
    neither set: the commit succeeds and the peer is not in the leecher
    set, against C2 as stated. *)
Lemma seed_then_leech_leaves_peer_out :
  match seed_then_leech (New conf0) torrent0 peer0 world_up with
  | Returns (w', None) =>
      member (db w') (LeechersKey conf0 torrent0) peer0 = false
      /\ member (db w') (SeedersKey conf0 torrent0) peer0 = false
  | _ => False
  end.
Proof. vm_compute. split; reflexivity. Qed.

(** C2, amended: on an open transaction [NewSeeder] and [NewLeecher]
    return nil and queue nothing: the transaction and the world are
    returned as they were.  After committing a transaction that calls
    [NewSeeder] and then [NewLeecher], the keyspace is as before, so the
    peer is in the seeder set, and in the leecher set, exactly if it was
    before. *)
Theorem NewSeeder_NewLeecher_queue_nothing
  (conf : config.Storage) (t : storage.Torrent) (p : storage.Peer) (w : World) :
  (forall tx : Tx, done tx = false ->
     NewSeeder tx t p w = (tx, w, None) /\ NewLeecher tx t p w = (tx, w, None))
  /\ (reachable conf w ->
      exists w',
        seed_then_leech (New conf) t p w = Returns (w', None)
        /\ db w' = db w
        /\ member (db w') (SeedersKey conf t) p = member (db w) (SeedersKey conf t) p
        /\ member (db w') (LeechersKey conf t) p = member (db w) (LeechersKey conf t) p).
Proof.
  split.
  - intros tx Hd. unfold NewSeeder, NewLeecher. rewrite Hd. auto.
  - intros Hup. unfold seed_then_leech. rewrite (Begin_up _ _ Hup).
    unfold NewSeeder, NewLeecher. cbn [done]. rewrite Commit_begun.
    eexists. split; [reflexivity|]. cbn. auto.
Qed.

Lemma NewSeeder_NewLeecher_queue_nothing_witness :
  done tx_open = false
  /\ reachable conf0 world_up
  /\ NewSeeder tx_open torrent0 peer0 world_up = (tx_open, world_up, None)
  /\ exists w',
       seed_then_leech (New conf0) torrent0 peer0 world_up = Returns (w', None)
       /\ db w' = db world_up
       /\ member (db w') (SeedersKey conf0 torrent0) peer0
          = member (db world_up) (SeedersKey conf0 torrent0) peer0
       /\ member (db w') (LeechersKey conf0 torrent0) peer0
          = member (db world_up) (LeechersKey conf0 torrent0) peer0.
Proof.
  destruct (NewSeeder_NewLeecher_queue_nothing conf0 torrent0 peer0 world_up)
    as [Hops Hscen].
  split; [reflexivity | split; [reflexivity | split]].
  - exact (proj1 (Hops tx_open eq_refl)).
  - exact (Hscen eq_refl).
Defined.

(** ** The slot operations *)

(** A user whose slots are all in use, and one with none in use: both
    adjustments return nil, against C3 as stated. *)
Lemma slot_adjustments_at_the_bounds_succeed :
  stored_slots (db world_tx) (UserKey conf0 "abc123") = Some (5, 5)
  /\ storage.SlotsUsed user0 = storage.Slots user0
  /\ IncrementSlots tx_open user0 world_tx = (tx_open, world_tx, None)
  /\ storage.SlotsUsed user1 = 0
  /\ DecrementSlots tx_open user1 world_tx = (tx_open, world_tx, None).
Proof. repeat split; vm_compute; reflexivity. Qed.

(** C3, amended: on an open transaction [IncrementSlots] and
    [DecrementSlots] return nil and queue nothing, whatever the user's
    slots: the transaction and the world are returned as they were, so
    the stored slot count is unchanged and a stored count within [0 <=
    used <= total] stays within it. *)
Theorem slot_adjustments_queue_nothing (tx : Tx) (u : storage.User) (w : World) :
  done tx = false ->
  IncrementSlots tx u w = (tx, w, None)
  /\ DecrementSlots tx u w = (tx, w, None)
  /\ forall key : string,
       stored_slots (db (world_of (IncrementSlots tx u w))) key = stored_slots (db w) key
       /\ stored_slots (db (world_of (DecrementSlots tx u w))) key = stored_slots (db w) key
       /\ (slots_bounded (db w) key ->
           slots_bounded (db (world_of (IncrementSlots tx u w))) key
           /\ slots_bounded (db (world_of (DecrementSlots tx u w))) key).
Proof.
  intros Hd. unfold IncrementSlots, DecrementSlots. rewrite Hd.
  split; [reflexivity | split; [reflexivity |]].
  intros key. unfold world_of. cbn [fst snd].
  split; [reflexivity | split; [reflexivity |]].
  intros Hb. split; exact Hb.
Qed.

Lemma slot_adjustments_queue_nothing_witness :
  done tx_open = false
  /\ IncrementSlots tx_open user0 world_tx = (tx_open, world_tx, None)
  /\ DecrementSlots tx_open user1 world_tx = (tx_open, world_tx, None).
Proof.
  split; [reflexivity|].
  split.
  - exact (proj1 (slot_adjustments_queue_nothing tx_open user0 world_tx eq_refl)).
  - exact (proj1 (proj2 (slot_adjustments_queue_nothing tx_open user1 world_tx eq_refl))).
Defined.

(** ** Connections are given back *)

Lemma Do_EXISTS_dialled (conf : config.Storage) (key : string) (w : World) :
  Do (dialled conf) "EXISTS" [key] w
  = (dialled conf, sent [{| name := "EXISTS"; args := [key] |}] w,
     (Integer (match db w !! key with Some _ => 1 | None => 0 end), None)).
Proof.
  unfold Do, dialled, sent. cbn.
  destruct (db w !! key); reflexivity.
Qed.

Ltac lookup_releases conf w :=
  let E := fresh "E" in
  destruct (net w (config.Network conf) (config.Addr conf) (timeout_of conf)) eqn:E;
  [ rewrite (Get_New_down _ _ _ E); reflexivity
  | rewrite (Get_New_up _ _ E); cbn [ds_conf New];
    rewrite ?Do_HGETALL_dialled, ?Do_EXISTS_dialled; reflexivity ].

(** The three lookups give their connection back on every path. *)
Lemma FindUser_releases (conf : config.Storage) (passkey : string) (w : World) :
  borrowed (fst (FindUser (New conf) passkey w)) = borrowed w.
Proof. unfold FindUser. lookup_releases conf w. Qed.

Lemma FindTorrent_releases (conf : config.Storage) (infohash : string) (w : World) :
  borrowed (fst (FindTorrent (New conf) infohash w)) = borrowed w.
Proof. unfold FindTorrent. lookup_releases conf w. Qed.

Lemma ClientWhitelisted_releases (conf : config.Storage) (peerID : string) (w : World) :
  borrowed (fst (ClientWhitelisted (New conf) peerID w)) = borrowed w.
Proof. unfold ClientWhitelisted. lookup_releases conf w. Qed.

(** A successful [Begin] hands the connection to the transaction, which
    gives it back when it is rolled back. *)
Lemma Begin_then_Rollback_releases (conf : config.Storage) (w : World) :
  reachable conf w ->
  exists tx tx' w',
    Begin (New conf) w = (lend w, (Some tx, None))
    /\ Rollback tx (lend w) = Returns (tx', w', None)
    /\ borrowed w' = borrowed w.
Proof.
  intros Hup. rewrite (Begin_up _ _ Hup).
  eexists _, _, _. repeat split.
Qed.

(** C7: every connection taken from the pool is given back on every
    path.  Each of the three lookups returns with the pool's count of
    borrowed connections as it found it, whether the dial, the read or
    the decoding fails or not.  [Begin] either returns an open
    transaction that holds the one connection it borrowed, and [close]
    on that transaction gives it back; or it returns an error, and then
    no connection is out: on that path the handle is the error
    connection, which holds none. *)
Theorem acquired_connections_are_released
  (conf : config.Storage) (passkey infohash peerID : string) (w : World) :
  borrowed (fst (FindUser (New conf) passkey w)) = borrowed w
  /\ borrowed (fst (FindTorrent (New conf) infohash w)) = borrowed w
  /\ borrowed (fst (ClientWhitelisted (New conf) peerID w)) = borrowed w
  /\ match Begin (New conf) w with
     | (w', (Some tx, None)) =>
         borrowed w' = S (borrowed w)
         /\ done tx = false
         /\ closed (tx_Conn tx) = false
         /\ match close tx w' with
            | Returns (tx', w'') =>
                done tx' = true
                /\ closed (tx_Conn tx') = true
                /\ borrowed w'' = borrowed w
            | Panics _ => False
            end
     | (w', (None, Some _)) => borrowed w' = borrowed w
     | _ => False
     end.
Proof.
  split; [apply FindUser_releases|].
  split; [apply FindTorrent_releases|].
  split; [apply ClientWhitelisted_releases|].
  destruct (net w (config.Network conf) (config.Addr conf) (timeout_of conf)) eqn:E.
  - rewrite (Begin_down _ _ _ E). reflexivity.
  - rewrite (Begin_up _ _ E). repeat split.
Qed.

Example Begin_refused_dial :
  Begin (New conf0) world_down
  = (world_down, (None, Some "dial tcp 127.0.0.1:6379: connection refused"))
  /\ fst (FindUser (New conf0) "abc123" world_down) = world_down.
Proof. split; reflexivity. Qed.

(** ** Unprune *)

Lemma unprune_command_unknown (conf : config.Storage) (t : storage.Torrent) :
  rejected (unprune_command conf t)
  = Some ("ERR unknown command '" +:+ name (unprune_command conf t) +:+ "'").
Proof. reflexivity. Qed.

Lemma unprune_command_data (conf : config.Storage) (t : storage.Torrent) :
  data_command (unprune_command conf t).
Proof. split; [|split]; discriminate. Qed.

(** On an open transaction whose handle holds a connection [Unprune]
    returns nil and appends its one command, a name without arguments,
    to the output buffer. *)
Lemma Unprune_open (tx : Tx) (t : storage.Torrent) (w : World) :
  done tx = false ->
  closed (tx_Conn tx) = false ->
  Unprune tx t w
  = ({| tx_conf := tx_conf tx; done := false;
        tx_Conn := {| err := err (tx_Conn tx);
                      pending := (pending (tx_Conn tx)
                                  ++ [unprune_command (tx_conf tx) t])%list;
                      session := session (tx_Conn tx);
                      closed := false;
                      readTimeout := readTimeout (tx_Conn tx);
                      writeTimeout := writeTimeout (tx_Conn tx) |} |},
     w, None).
Proof.
  intros Hd Hc. unfold Unprune, Send. rewrite Hd, Hc. reflexivity.
Qed.

(** C8: what [Unprune] queues for the torrent ["ih"] under the prefix
    ["chihaya:"] is one command whose name is the whole text ["HSET
    chihaya:Torrent:ih Status 0"], with no arguments.  The server
    rejects it as unknown, the commit of the transaction fails and the
    stored status is still [1]; the write HSET with key, field and value
    as arguments would have set it to [0]. *)
Theorem Unprune_queues_unknown_command :
  Unprune tx_open torrent0 world_tx
  = ({| tx_conf := conf0; done := false;
        tx_Conn := {| err := None;
                      pending := [{| name := "MULTI"; args := [] |};
                                  {| name := "HSET chihaya:Torrent:ih Status 0";
                                     args := [] |}];
                      session := clean; closed := false;
                      readTimeout := 0; writeTimeout := 0 |} |},
     world_tx, None)
  /\ rejected {| name := "HSET chihaya:Torrent:ih Status 0"; args := [] |}
     = Some "ERR unknown command 'HSET chihaya:Torrent:ih Status 0'"
  /\ match unprune_and_commit (New conf0) torrent0 world_up with
     | Returns (_, w', Some e) =>
         e = "ERR unknown command 'HSET chihaya:Torrent:ih Status 0'"
         /\ stored_status (db w') (TorrentKey conf0 "ih") = Some "1"
     | _ => False
     end
  /\ stored_status (db world_up) (TorrentKey conf0 "ih") = Some "1"
  /\ stored_status (fst (run (status_write conf0 torrent0) (db world_up)))
       (TorrentKey conf0 "ih") = Some "0".
Proof. repeat split; vm_compute; reflexivity. Qed.

(** ** Atomicity of the batch *)

Lemma first_error_app (rs rs' : list Reply) :
  first_error (rs ++ rs')
  = match first_error rs with
    | Some e => Some e
    | None => first_error rs'
    end.
Proof.
  induction rs as [|r rs IH]; [reflexivity|].
  destruct r; cbn; auto.
Qed.

Lemma serve_all_app (xs ys : list Command) (s : Session) (d : Store) :
  serve_all (xs ++ ys) s d
  = let '(s1, d1, rs1) := serve_all xs s d in
    let '(s2, d2, rs2) := serve_all ys s1 d1 in
    (s2, d2, (rs1 ++ rs2)%list).
Proof.
  revert s d. induction xs as [|x xs IH]; intros s d; cbn.
  - destruct (serve_all ys s d) as [[s2 d2] rs2]. reflexivity.
  - destruct (serve x s d) as [[s1 d1] r]. rewrite IH.
    destruct (serve_all xs s1 d1) as [[s1' d1'] rs1].
    destruct (serve_all ys s1' d1') as [[s2 d2] rs2]. reflexivity.
Qed.

(** Inside MULTI the server queues a data command, or rejects it and
    marks the session; the keyspace is not touched. *)
Lemma serve_in_multi (c : Command) (q : list Command) (b : bool) (d : Store) :
  data_command c ->
  serve c {| queued := Some q; dirty := b |} d
  = match rejected c with
    | Some e => ({| queued := Some q; dirty := true |}, d, Error e)
    | None => ({| queued := Some (q ++ [c])%list; dirty := b |}, d, Status "QUEUED")
    end.
Proof.
  intros (Hm & He & Hx). unfold serve. destruct (rejected c); [reflexivity|].
  apply String.eqb_neq in Hm, He, Hx. rewrite Hm, He, Hx. reflexivity.
Qed.

Lemma serve_all_in_multi (cs : list Command) :
  Forall data_command cs ->
  forall (q : list Command) (b : bool) (d : Store),
  exists q' b' rs,
    serve_all cs {| queued := Some q; dirty := b |} d
    = ({| queued := Some q'; dirty := b' |}, d, rs)
    /\ (b' = false -> b = false /\ first_error rs = None).
Proof.
  induction 1 as [|c cs Hc Hcs IH]; intros q b d; cbn [serve_all].
  - eexists _, _, _. split; [reflexivity|]. auto.
  - rewrite (serve_in_multi _ _ _ _ Hc).
    destruct (rejected c) as [e|].
    + destruct (IH q true d) as (q' & b' & rs & -> & Hrs).
      eexists _, _, _. split; [reflexivity|].
      intros Hb. destruct (Hrs Hb) as [Habs _]. discriminate.
    + destruct (IH (q ++ [c])%list b d) as (q' & b' & rs & -> & Hrs).
      eexists _, _, _. split; [reflexivity|].
      intros Hb. destruct (Hrs Hb) as [-> Hfe]. cbn. auto.
Qed.

(** Flushing an open transaction's buffer followed by EXEC: when any
    reply is an error the keyspace is as before. *)
Lemma flush_batch_atomic (cs : list Command) (d : Store) :
  Forall data_command cs ->
  exists s' d' rs,
    serve_all (({| name := "MULTI"; args := [] |} :: cs)
               ++ [{| name := "EXEC"; args := [] |}]) clean d
    = (s', d', rs)
    /\ (first_error rs = None \/ d' = d).
Proof.
  intros Hcs. cbn [app serve_all]. 
  change (serve {| name := "MULTI"; args := [] |} clean d)
    with ({| queued := Some []; dirty := false |}, d, Status "OK").
  cbv beta iota zeta.
  rewrite serve_all_app.
  destruct (serve_all_in_multi cs Hcs [] false d) as (q' & b' & rs & -> & Hrs).
  cbn [serve_all].
  destruct b'.
  - eexists _, _, _. split; [reflexivity|]. right. reflexivity.
  - destruct (Hrs eq_refl) as [_ Hfe].
    change (serve {| name := "EXEC"; args := [] |} {| queued := Some q'; dirty := false |} d)
      with (let (db', rs0) := run_all q' d in (clean, db', Array rs0)).
    destruct (run_all q' d) as [db' rs0].
    eexists _, _, _. split; [reflexivity|]. left.
    cbn. rewrite first_error_app, Hfe. reflexivity.
Qed.

(** The driver keeps the shape of the batch: [Begin] sets it up and
    [Unprune], the one mutation that writes, appends a data command. *)
Lemma batching_Begin (conf : config.Storage) (w : World) (tx : Tx) (e : option Err) :
  Begin (New conf) w = (lend w, (Some tx, e)) ->
  batching tx.
Proof.
  destruct (net w (config.Network conf) (config.Addr conf) (timeout_of conf)) eqn:E.
  - rewrite (Begin_down _ _ _ E). discriminate.
  - rewrite (Begin_up _ _ E). intros [= <- _].
    split; [reflexivity | split; [reflexivity |]].
    exists []. split; [reflexivity | constructor].
Qed.

Lemma batching_Unprune (tx : Tx) (t : storage.Torrent) (w : World) :
  batching tx ->
  batching (tx_of (Unprune tx t w)).
Proof.
  intros (Hd & Hs & cs & Hp & Hcs). unfold Unprune, Send. rewrite Hd.
  destruct (closed (tx_Conn tx)) eqn:He; cbn.
  - split; [reflexivity | split; [exact Hs |]]. exists cs. auto.
  - split; [reflexivity | split; [exact Hs |]].
    exists (cs ++ [unprune_command (tx_conf tx) t])%list. split.
    + rewrite Hp. reflexivity.
    + apply Forall_app. split; [exact Hcs|].
      constructor; [apply unprune_command_data | constructor].
Qed.

(** A failed [Commit] of such a transaction leaves the keyspace as it
    was: none of the buffered commands took effect. *)
Lemma Commit_failure_atomic (tx tx' : Tx) (w w' : World) (e : Err) :
  batching tx ->
  Commit tx w = Returns (tx', w', Some e) ->
  db w' = db w.
Proof.
  intros (Hd & Hs & cs & Hp & Hcs). unfold Commit, Do. rewrite Hd.
  destruct (err (tx_Conn tx)) eqn:He.
  - cbn. intros [= _ <- _]. reflexivity.
  - rewrite Hp, Hs.
    destruct (flush_batch_atomic cs (db w) Hcs) as (s' & d' & rs & -> & Hrs).
    cbn [snd]. destruct (first_error rs) eqn:Hfe.
    + intros [= _ <- _]. destruct Hrs as [Hrs|Hrs]; [discriminate | exact Hrs].
    + rewrite close_open by reflexivity. discriminate.
Qed.

(** C5: a transaction that unprunes a torrent and commits: EXEC fails
    and the keyspace is as before, but the transaction is still open,
    its connection handle is not closed and the pool still counts it as
    borrowed.  The same when the connection has failed since [Begin]. *)
Theorem Commit_failure_keeps_connection :
  match unprune_and_commit (New conf0) torrent0 world_up with
  | Returns (Some tx', w', Some _) =>
      db w' = db world_up
      /\ done tx' = false
      /\ closed (tx_Conn tx') = false
      /\ borrowed w' = 1%nat
  | _ => False
  end
  /\ Commit tx_broken world_tx
     = Returns (tx_broken, world_tx, Some "write tcp 127.0.0.1:6379: broken pipe")
  /\ done tx_broken = false
  /\ borrowed world_tx = 1%nat.
Proof. repeat split; vm_compute; reflexivity. Qed.

(** ** Rollback *)

Lemma unprune_commands_data (cs : list Command) :
  unprune_commands cs -> Forall data_command cs.
Proof.
  induction 1 as [|c cs (conf & t & ->) _ IH]; constructor;
    [apply unprune_command_data | exact IH].
Qed.

(** The commands of [Unprune] do not move the handle in or out of
    MULTI. *)
Lemma unprune_commands_no_EXEC (cs : list Command) :
  unprune_commands cs -> Forall (fun x => name x <> "EXEC") cs.
Proof.
  induction 1 as [|c cs (conf & t & ->) _ IH]; constructor;
    [discriminate | exact IH].
Qed.

Lemma client_state_unprunes (cs : list Command) (m : bool) :
  unprune_commands cs -> client_state cs m = m.
Proof.
  induction 1 as [|c cs (conf & t & ->) _ IH]; [reflexivity|].
  cbn [client_state]. exact IH.
Qed.

(** DISCARD after queued or rejected commands: the session leaves
    MULTI, the keyspace is as before. *)
Lemma flush_discard (cs : list Command) (q : list Command) (b : bool) (d : Store) :
  Forall data_command cs ->
  exists rs,
    serve_all (cs ++ [{| name := "DISCARD"; args := [] |}])
      {| queued := Some q; dirty := b |} d
    = (clean, d, rs).
Proof.
  intros Hcs. rewrite serve_all_app.
  destruct (serve_all_in_multi cs Hcs q b d) as (q' & b' & rs & -> & _).
  eexists. reflexivity.
Qed.

(** The states of an open transaction: [Begin] reaches the first, and
    every mutation call keeps them. *)
Lemma open_batch_Begin (conf : config.Storage) (w w' : World) (tx : Tx) (e : option Err) :
  Begin (New conf) w = (w', (Some tx, e)) ->
  open_batch tx.
Proof.
  destruct (net w (config.Network conf) (config.Addr conf) (timeout_of conf)) eqn:E.
  - rewrite (Begin_down _ _ _ E). discriminate.
  - rewrite (Begin_up _ _ E). intros [= _ <- _].
    split; [reflexivity | split; [reflexivity |]].
    left. split; [reflexivity|]. exists []. split; [reflexivity | constructor].
Qed.

Lemma open_batch_apply_op (o : Op) (tx : Tx) (w : World) :
  open_batch tx ->
  open_batch (tx_of (apply_op o tx w)).
Proof.
  intros (Hd & Hc & H).
  destruct o; cbn [apply_op];
    unfold Snatch, Unprune, NewLeecher, RmLeecher, NewSeeder, RmSeeder,
      IncrementSlots, DecrementSlots, Send;
    rewrite Hd, ?Hc; try (split; [exact Hd | split; [exact Hc | exact H]]).
  cbn. split; [reflexivity | split; [reflexivity |]].
  assert (Hu : unprune_commands [unprune_command (tx_conf tx) t]).
  { constructor; [eauto | constructor]. }
  destruct H as [(Hs & cs & Hp & Hcs)|(Hs & Hcs)].
  - left. split; [exact Hs|].
    exists (cs ++ [unprune_command (tx_conf tx) t])%list. rewrite Hp.
    split; [reflexivity | apply Forall_app; split; assumption].
  - right. split; [exact Hs | apply Forall_app; split; assumption].
Qed.

(** Closing the connection of an open transaction: DISCARD follows
    what is buffered, no EXEC goes out, and the keyspace is as
    before. *)
Lemma Close_discards (c : Conn) (w : World) :
  closed c = false ->
  (session c = clean
   /\ exists cs, pending c = {| name := "MULTI"; args := [] |} :: cs
                 /\ unprune_commands cs)
  \/ ((exists q b, session c = {| queued := Some q; dirty := b |})
      /\ unprune_commands (pending c)) ->
  exists cs,
    db (snd (Close c w)) = db w
    /\ wire (snd (Close c w)) = (wire w ++ cs)%list
    /\ Forall (fun x => name x <> "EXEC") cs
    /\ (err c = None -> cs = (pending c ++ [{| name := "DISCARD"; args := [] |}])%list).
Proof.
  intros Hc H. unfold Close. rewrite Hc.
  assert (Hm : in_multi c = true).
  { unfold in_multi. destruct H as [(Hs & cs & Hp & Hcs)|((q & b & Hs) & Hcs)].
    - rewrite Hp. cbn [client_state]. apply (client_state_unprunes _ _ Hcs).
    - rewrite Hs. cbn [queued]. apply (client_state_unprunes _ _ Hcs). }
  rewrite Hm.
  destruct (err c) eqn:He.
  - exists []. cbn. rewrite app_nil_r.
    repeat split; [constructor | discriminate].
  - exists (pending c ++ [{| name := "DISCARD"; args := [] |}])%list.
    assert (Hne : Forall (fun x => name x <> "EXEC")
                    (pending c ++ [{| name := "DISCARD"; args := [] |}])%list).
    { apply Forall_app. split; [|constructor; [discriminate | constructor]].
      destruct H as [(Hs & cs & Hp & Hcs)|(_ & Hcs)].
      - rewrite Hp. constructor; [discriminate|].
        apply (unprune_commands_no_EXEC _ Hcs).
      - apply (unprune_commands_no_EXEC _ Hcs). }
    destruct H as [(Hs & cs & Hp & Hcs)|((q & b & Hs) & Hcs)].
    + rewrite Hp in *. rewrite Hs. cbn [app serve_all].
      change (serve {| name := "MULTI"; args := [] |} clean (db w))
        with ({| queued := Some []; dirty := false |}, db w, Status "OK").
      cbv beta iota zeta.
      destruct (flush_discard cs [] false (db w) (unprune_commands_data _ Hcs))
        as (rs & ->).
      cbn. auto.
    + rewrite Hs.
      destruct (flush_discard (pending c) q b (db w) (unprune_commands_data _ Hcs))
        as (rs & Hrs).
      destruct (pending c ++ [{| name := "DISCARD"; args := [] |}])%list as [|x xs] eqn:Ex.
      { destruct (pending c); discriminate Ex. }
      rewrite Hrs. cbn. auto.
Qed.




(** ** More on the lookups *)

(** X1: on a server that can be dialled [ClientWhitelisted] returns
    whether the key [<prefix>Whitelist:<peerID>] exists, whatever it
    holds, and no error: a missing entry is not an error.  The
    keyspace and the pool's count are as before. *)
Theorem ClientWhitelisted_reports_existence
  (conf : config.Storage) (peerID : string) (w : World) :
  reachable conf w ->
  snd (ClientWhitelisted (New conf) peerID w)
  = (match db w !! WhitelistKey conf peerID with
     | Some _ => true
     | None => false
     end, None)
  /\ db (fst (ClientWhitelisted (New conf) peerID w)) = db w
  /\ borrowed (fst (ClientWhitelisted (New conf) peerID w)) = borrowed w.
Proof.
  intros Hup. unfold ClientWhitelisted.
  rewrite (Get_New_up _ _ Hup). cbn [ds_conf New].
  fold (WhitelistKey conf peerID). rewrite Do_EXISTS_dialled.
  unfold lend, sent. cbn [db].
  destruct (db w !! WhitelistKey conf peerID); repeat split.
Qed.

Lemma ClientWhitelisted_reports_existence_witness :
  reachable conf0 world_up
  /\ snd (ClientWhitelisted (New conf0) "UT" world_up) = (false, None)
  /\ db (fst (ClientWhitelisted (New conf0) "UT" world_up)) = db world_up
  /\ borrowed (fst (ClientWhitelisted (New conf0) "UT" world_up)) = 0%nat.
Proof.
  split; [reflexivity|].
  exact (ClientWhitelisted_reports_existence conf0 "UT" world_up eq_refl).
Defined.

Example ClientWhitelisted_absent :
  snd (ClientWhitelisted (New conf0) "UT" world_up) = (false, None)
  /\ snd (ClientWhitelisted (New conf0) "UT"
            {| db := {[ "chihaya:Whitelist:UT" := VHash ∅ ]}; wire := [];
               borrowed := 0; net := net_up |}) = (true, None).
Proof. split; vm_compute; reflexivity. Qed.

(** X2: the lookups only read: whatever the world, and whether the
    dial, the read or the decoding fails or not, the keyspace after
    [FindUser], [FindTorrent] and [ClientWhitelisted] is the keyspace
    before. *)
Theorem lookups_only_read
  (conf : config.Storage) (passkey infohash peerID : string) (w : World) :
  db (fst (FindUser (New conf) passkey w)) = db w
  /\ db (fst (FindTorrent (New conf) infohash w)) = db w
  /\ db (fst (ClientWhitelisted (New conf) peerID w)) = db w.
Proof.
  unfold FindUser, FindTorrent, ClientWhitelisted.
  destruct (net w (config.Network conf) (config.Addr conf) (timeout_of conf))
    as [e|] eqn:E.
  - rewrite (Get_New_down _ _ _ E). repeat split.
  - rewrite (Get_New_up _ _ E). cbn [ds_conf New].
    rewrite !Do_HGETALL_dialled, Do_EXISTS_dialled. repeat split.
Qed.

(** X3: the result of a lookup depends on the keyspace through its own
    key only: on two worlds whose servers can be dialled and whose
    keyspaces agree on that key, the lookup returns the same. *)
Theorem lookups_read_one_key
  (conf : config.Storage) (passkey infohash peerID : string) (w1 w2 : World) :
  reachable conf w1 ->
  reachable conf w2 ->
  (db w1 !! UserKey conf passkey = db w2 !! UserKey conf passkey ->
   snd (FindUser (New conf) passkey w1) = snd (FindUser (New conf) passkey w2))
  /\ (db w1 !! TorrentKey conf infohash = db w2 !! TorrentKey conf infohash ->
      snd (FindTorrent (New conf) infohash w1) = snd (FindTorrent (New conf) infohash w2))
  /\ (db w1 !! WhitelistKey conf peerID = db w2 !! WhitelistKey conf peerID ->
      snd (ClientWhitelisted (New conf) peerID w1)
      = snd (ClientWhitelisted (New conf) peerID w2)).
Proof.
  intros H1 H2. split; [|split]; intros K.
  - rewrite !FindUser_read. cbn [ds_conf New].
    rewrite (read_record_New _ _ _ H1), (read_record_New _ _ _ H2), K. reflexivity.
  - rewrite !FindTorrent_read. cbn [ds_conf New].
    rewrite (read_record_New _ _ _ H1), (read_record_New _ _ _ H2), K. reflexivity.
  - unfold ClientWhitelisted.
    rewrite (Get_New_up _ _ H1), (Get_New_up _ _ H2). cbn [ds_conf New].
    fold (WhitelistKey conf peerID). rewrite !Do_EXISTS_dialled.
    unfold lend. cbn [db]. rewrite K. reflexivity.
Qed.

Lemma lookups_read_one_key_witness :
  reachable conf0 world_up
  /\ reachable conf0 world_tx
  /\ snd (FindUser (New conf0) "abc123" world_up)
     = snd (FindUser (New conf0) "abc123" world_tx)
  /\ snd (FindTorrent (New conf0) "ih" world_up)
     = snd (FindTorrent (New conf0) "ih" world_tx)
  /\ snd (ClientWhitelisted (New conf0) "UT" world_up)
     = snd (ClientWhitelisted (New conf0) "UT" world_tx).
Proof.
  destruct (lookups_read_one_key conf0 "abc123" "ih" "UT" world_up world_tx
              eq_refl eq_refl) as (Hu & Ht & Hw).
  split; [reflexivity | split; [reflexivity |]].
  split; [exact (Hu eq_refl) | split; [exact (Ht eq_refl) | exact (Hw eq_refl)]].
Defined.

(** X5: a lookup returns one of a few shapes.  [FindUser]: a clean
    miss [(nil, false, nil)], an error with found set [(nil, true,
    err)], or an entity [(user, true, nil)]; so found = false from
    [FindUser] is never an error.  [FindTorrent]: the same three, and a
    failed read [(nil, false, err)]. *)
Theorem lookup_result_shapes (ds : DS) (passkey infohash : string) (w : World) :
  match snd (FindUser ds passkey w) with
  | (None, false, None) | (None, true, Some _) | (Some _, true, None) => True
  | _ => False
  end
  /\ match snd (FindTorrent ds infohash w) with
     | (None, false, None) | (None, false, Some _) | (None, true, Some _)
     | (Some _, true, None) => True
     | _ => False
     end.
Proof.
  rewrite FindUser_read, FindTorrent_read. split.
  - destruct (read_record ds _ w) as [reply|e]; [|exact I].
    destruct (Nat.eqb _ _); [exact I|].
    destruct (ScanStruct _ _ _); exact I.
  - destruct (read_record ds _ w) as [reply|e]; [|exact I].
    destruct (Nat.eqb _ _); [exact I|].
    destruct (ScanStruct _ _ _); exact I.
Qed.

(** ** The key namespace *)

Lemma append_cancel_l (p a b : string) : p +:+ a = p +:+ b -> a = b.
Proof.
  induction p as [|c p IH]; cbn; [auto|].
  intros [= H]. auto.
Qed.

(** X4: under one prefix the keys of users, torrents and whitelist
    entries never coincide, and different passkeys, infohashes or peer
    ids give different keys. *)
Theorem key_namespaces (conf : config.Storage) (a b : string) :
  UserKey conf a <> TorrentKey conf b
  /\ UserKey conf a <> WhitelistKey conf b
  /\ TorrentKey conf a <> WhitelistKey conf b
  /\ (UserKey conf a = UserKey conf b -> a = b)
  /\ (TorrentKey conf a = TorrentKey conf b -> a = b)
  /\ (WhitelistKey conf a = WhitelistKey conf b -> a = b).
Proof.
  unfold UserKey, TorrentKey, WhitelistKey.
  repeat split; intros H; apply append_cancel_l in H;
    solve [discriminate H | apply (append_cancel_l _ _ _ H)].
Qed.

Lemma key_namespaces_witness :
  UserKey conf0 "abc123" <> UserKey conf0 "abc124"
  /\ UserKey conf0 "ih" <> TorrentKey conf0 "ih".
Proof.
  destruct (key_namespaces conf0 "abc123" "abc124") as (_ & _ & _ & Hinj & _).
  destruct (key_namespaces conf0 "ih" "ih") as (Hne & _).
  split; [|exact Hne].
  intros H. apply Hinj in H. discriminate H.
Defined.

(** ** More on transactions *)

(** X7: [Begin] returns a transaction exactly when it returns no
    error; the transaction is open and carries the store's
    configuration, and the keyspace is as before.  On a server that can
    be dialled [Begin] succeeds: the transaction has MULTI in its
    output buffer and nothing else, and the pool counts one more
    connection out. *)
Theorem Begin_transaction_or_error (ds : DS) (conf : config.Storage) (w : World) :
  match snd (Begin ds w) with
  | (Some tx, None) => done tx = false /\ tx_conf tx = ds_conf ds
  | (None, Some _) => True
  | _ => False
  end
  /\ db (fst (Begin ds w)) = db w
  /\ (reachable conf w ->
      exists w',
        Begin (New conf) w = (w', (Some (batch_tx conf []), None))
        /\ borrowed w' = S (borrowed w)).
Proof.
  split; [|split].
  - unfold Begin. destruct (Get (ds_Pool ds) w) as [conn w1].
    destruct (Send conn "MULTI" []) as [conn1 [e|]]; cbn; auto.
  - unfold Begin, Get. destruct (DialFunc (ds_Pool ds) w) as [c|e].
    + destruct (Send c "MULTI" []) as [conn1 [e|]]; reflexivity.
    + destruct (Send (errorConnection e) "MULTI" []) as [conn1 [e'|]]; reflexivity.
  - intros Hup. rewrite (Begin_up _ _ Hup). eexists. split; reflexivity.
Qed.

Lemma Begin_transaction_or_error_witness :
  reachable conf0 world_up
  /\ exists w',
       Begin (New conf0) world_up = (w', (Some (batch_tx conf0 []), None))
       /\ borrowed w' = 1%nat.
Proof.
  split; [reflexivity|].
  exact (proj2 (proj2 (Begin_transaction_or_error (New conf0) conf0 world_up)) eq_refl).
Defined.

(** X8: [Commit] and [Rollback] never panic: they reach [close] only
    with the closed flag unset, so "transaction closed twice" cannot
    happen through them. *)
Theorem Commit_Rollback_never_panic (tx : Tx) (w : World) :
  match Commit tx w with
  | Returns _ => True
  | Panics _ => False
  end
  /\ match Rollback tx w with
     | Returns _ => True
     | Panics _ => False
     end.
Proof.
  split.
  - destruct (Commit_returns tx w) as [r ->]. exact I.
  - unfold Rollback. destruct (done tx) eqn:Hd; [exact I|].
    rewrite (close_open _ _ Hd). exact I.
Qed.

(** X9: once [Commit] or [Rollback] has returned nil, a further
    [Commit] or [Rollback] on the transaction returns [ErrTxDone] and
    changes neither the transaction nor the world. *)
Theorem closing_twice_is_refused (tx tx' : Tx) (w w' : World) :
  Commit tx w = Returns (tx', w', None) \/ Rollback tx w = Returns (tx', w', None) ->
  Commit tx' w' = Returns (tx', w', Some storage.ErrTxDone)
  /\ Rollback tx' w' = Returns (tx', w', Some storage.ErrTxDone).
Proof.
  intros H.
  assert (Hd' : done tx' = true).
  { destruct (done tx) eqn:Hd.
    - destruct H as [H|H]; [unfold Commit in H | unfold Rollback in H];
        rewrite Hd in H; discriminate H.
    - destruct H as [H|H].
      + apply (Commit_success_closes _ _ _ _ Hd H).
      + unfold Rollback in H. rewrite Hd, (close_open _ _ Hd) in H.
        injection H as <- _. reflexivity. }
  unfold Commit, Rollback. rewrite Hd'. split; reflexivity.
Qed.

Lemma closing_twice_is_refused_witness :
  Commit tx_open world_tx
  = Returns (tx_closed, sent [{| name := "MULTI"; args := [] |};
                              {| name := "EXEC"; args := [] |}] world_up, None)
  /\ Rollback tx_closed
       (sent [{| name := "MULTI"; args := [] |}; {| name := "EXEC"; args := [] |}] world_up)
     = Returns (tx_closed,
                sent [{| name := "MULTI"; args := [] |};
                      {| name := "EXEC"; args := [] |}] world_up,
                Some storage.ErrTxDone).
Proof.
  split; [reflexivity|].
  exact (proj2 (closing_twice_is_refused tx_open tx_closed world_tx _
                  (or_introl eq_refl))).
Defined.

(** After EXEC the session is outside MULTI. *)
Lemma serve_all_ends_EXEC (xs : list Command) (s : Session) (d : Store) :
  queued (fst (fst (serve_all (xs ++ [{| name := "EXEC"; args := [] |}]) s d))) = None.
Proof.
  rewrite serve_all_app.
  destruct (serve_all xs s d) as [[s1 d1] rs1]. cbn [serve_all].
  unfold serve. cbn.
  destruct (queued s1) eqn:Q; [|cbn; exact Q].
  destruct (dirty s1); [reflexivity|].
  destruct (run_all l d1). reflexivity.
Qed.

(** After a failed [Commit] the connection is in the error state, or
    has nothing buffered and is outside MULTI. *)
Lemma Commit_failure_conn (tx tx' : Tx) (w w' : World) (e : Err) :
  done tx = false ->
  Commit tx w = Returns (tx', w', Some e) ->
  (pending (tx_Conn tx') = [] /\ queued (session (tx_Conn tx')) = None)
  \/ err (tx_Conn tx') <> None.
Proof.
  intros Hd. unfold Commit, Do. rewrite Hd.
  destruct (err (tx_Conn tx)) eqn:He.
  - cbn. intros [= <- _ _]. right. cbn. congruence.
  - pose proof (serve_all_ends_EXEC (pending (tx_Conn tx)) (session (tx_Conn tx)) (db w))
      as Hq.
    destruct (serve_all _ _ _) as [[s d] rs]. cbn [fst snd] in Hq |- *.
    destruct (first_error rs).
    + intros [= <- _ _]. left. cbn. auto.
    + rewrite close_open by reflexivity. discriminate.
Qed.

(** X11: after a failed [Commit] the transaction can still be rolled
    back: [Rollback] returns nil, closes the transaction and gives the
    connection back to the pool, and the keyspace stays as the failed
    [Commit] left it. *)
Theorem Rollback_after_failed_Commit (tx tx' : Tx) (w w' : World) (e : Err) :
  done tx = false ->
  Commit tx w = Returns (tx', w', Some e) ->
  exists tx'' w'',
    Rollback tx' w' = Returns (tx'', w'', None)
    /\ done tx'' = true
    /\ closed (tx_Conn tx'') = true
    /\ borrowed w''
       = (if closed (tx_Conn tx) then borrowed w else Nat.pred (borrowed w))
    /\ db w'' = db w'.
Proof.
  intros Hd Hc.
  destruct (Commit_failure_keeps_open _ _ _ _ _ Hd Hc) as (Hd' & Hcl & Hb).
  unfold Rollback. rewrite Hd', (close_open _ _ Hd').
  destruct (Close_pool (tx_Conn tx') w') as (_ & Hbw & Hclosed).
  destruct (Close_quiet (tx_Conn tx') w') as (Hdb & _).
  { destruct (Commit_failure_conn _ _ _ _ _ Hd Hc) as [H|H]; auto. }
  eexists _, _. split; [reflexivity|]. cbn [done tx_Conn].
  rewrite Hbw, Hcl, Hb. auto.
Qed.

Lemma Rollback_after_failed_Commit_witness :
  done tx_broken = false
  /\ Commit tx_broken world_tx
     = Returns (tx_broken, world_tx, Some "write tcp 127.0.0.1:6379: broken pipe")
  /\ exists tx'' w'',
       Rollback tx_broken world_tx = Returns (tx'', w'', None)
       /\ done tx'' = true
       /\ closed (tx_Conn tx'') = true
       /\ borrowed w'' = 0%nat
       /\ db w'' = db world_tx.
Proof.
  split; [reflexivity | split; [reflexivity |]].
  exact (Rollback_after_failed_Commit tx_broken tx_broken world_tx world_tx _
           eq_refl eq_refl).
Defined.

(** X12: no mutation operation changes the keyspace or the pool's
    count, and none closes the transaction: whatever the call and the
    state of the transaction, the keyspace and the number of borrowed
    connections are as before, and the transaction keeps its closed
    flag, its configuration and its connection. *)
Theorem mutations_keep_store_and_transaction (o : Op) (tx : Tx) (w : World) :
  db (world_of (apply_op o tx w)) = db w
  /\ borrowed (world_of (apply_op o tx w)) = borrowed w
  /\ done (tx_of (apply_op o tx w)) = done tx
  /\ tx_conf (tx_of (apply_op o tx w)) = tx_conf tx
  /\ closed (tx_Conn (tx_of (apply_op o tx w))) = closed (tx_Conn tx).
Proof.
  destruct o; cbn [apply_op];
    unfold Snatch, Unprune, NewLeecher, RmLeecher, NewSeeder, RmSeeder,
      IncrementSlots, DecrementSlots, Send;
    destruct (done tx) eqn:Hd; try (cbn; rewrite ?Hd; auto 10; fail);
    destruct (closed (tx_Conn tx)) eqn:Hc; cbn; rewrite ?Hd, ?Hc; auto 10.
Qed.

(** ** Whole transactions *)

Lemma unpruned_cons (o : Op) (os : list Op) :
  unpruned (o :: os) = (unpruned [o] ++ unpruned os)%list.
Proof. destruct o; reflexivity. Qed.

(** From an open transaction with a working connection every call
    returns nil; only [Unprune] adds to the buffer. *)
Lemma apply_op_batch (conf : config.Storage) (ts : list storage.Torrent)
  (o : Op) (w : World) :
  apply_op o (batch_tx conf ts) w = (batch_tx conf (ts ++ unpruned [o]), w, None).
Proof.
  destruct o; cbn [apply_op unpruned]; rewrite ?app_nil_r; try reflexivity.
  unfold Unprune, Send, batch_tx. cbn.
  rewrite List.map_app. reflexivity.
Qed.

Lemma apply_ops_batch (conf : config.Storage) (os : list Op) :
  forall (ts : list storage.Torrent) (w : World),
    apply_ops os (batch_tx conf ts) w = (batch_tx conf (ts ++ unpruned os), w, None).
Proof.
  induction os as [|o os IH]; intros ts w; cbn [apply_ops].
  - cbn [unpruned]. rewrite app_nil_r. reflexivity.
  - rewrite apply_op_batch, IH, (unpruned_cons o os), <- app_assoc. reflexivity.
Qed.

(** Inside MULTI the server rejects every command of [Unprune] and
    marks the session. *)
Lemma serve_all_unprunes (conf : config.Storage) (ts : list storage.Torrent) :
  forall (q : list Command) (b : bool) (d : Store),
    serve_all (List.map (unprune_command conf) ts) {| queued := Some q; dirty := b |} d
    = ({| queued := Some q; dirty := match ts with [] => b | _ => true end |}, d,
       List.map (fun t => Error (unknown_command (unprune_command conf t))) ts).
Proof.
  induction ts as [|t ts IH]; intros q b d; [reflexivity|].
  cbn [List.map serve_all].
  rewrite (serve_in_multi _ _ _ _ (unprune_command_data conf t)),
    unprune_command_unknown, IH.
  destruct ts; reflexivity.
Qed.

(** [Commit] of such a transaction: with nothing unpruned the empty
    batch is applied and the transaction closed; otherwise EXEC aborts
    and [Commit] returns the server's rejection of the first [Unprune]
    command. *)
Lemma Commit_batch_tx (conf : config.Storage) (ts : list storage.Torrent) (w : World) :
  Commit (batch_tx conf ts) w
  = Returns
      match ts with
      | [] =>
          (closed_tx conf,
           returned (sent [{| name := "MULTI"; args := [] |};
                           {| name := "EXEC"; args := [] |}] w), None)
      | t :: _ =>
          (spent_tx conf,
           sent ({| name := "MULTI"; args := [] |}
                 :: List.map (unprune_command conf) ts
                 ++ [{| name := "EXEC"; args := [] |}]) w,
           Some (unknown_command (unprune_command conf t)))
      end.
Proof.
  destruct ts as [|t ts]; [reflexivity|].
  unfold Commit, Do, batch_tx.
  cbn [done tx_Conn tx_conf err pending session closed readTimeout writeTimeout].
  cbn [app serve_all].
  change (serve {| name := "MULTI"; args := [] |} clean (db w))
    with ({| queued := Some []; dirty := false |}, db w, Status "OK").
  cbv beta iota zeta.
  rewrite serve_all_app.
  rewrite (serve_all_unprunes conf (t :: ts) [] false (db w)).
  reflexivity.
Qed.

Lemma transact_reachable (conf : config.Storage) (os : list Op) (w : World) :
  reachable conf w ->
  transact (New conf) os w
  = Returns
      match unpruned os with
      | [] =>
          (Some (closed_tx conf),
           sent [{| name := "MULTI"; args := [] |}; {| name := "EXEC"; args := [] |}] w,
           None)
      | t :: _ =>
          (Some (spent_tx conf),
           lend (sent ({| name := "MULTI"; args := [] |}
                       :: List.map (unprune_command conf) (unpruned os)
                       ++ [{| name := "EXEC"; args := [] |}]) w),
           Some (unknown_command (unprune_command conf t)))
      end.
Proof.
  intros Hup. unfold transact. rewrite (Begin_up _ _ Hup).
  change {| tx_conf := conf; done := false; tx_Conn := begun conf |}
    with (batch_tx conf []).
  rewrite apply_ops_batch, Commit_batch_tx. cbn [app].
  destruct (unpruned os); reflexivity.
Qed.

(** X13: no transaction made through the driver changes the keyspace:
    whatever the calls between [Begin] and [Commit], and whether the
    server can be dialled or not, the keyspace afterwards is the one
    before. *)
Theorem transaction_never_changes_keyspace
  (conf : config.Storage) (os : list Op) (w : World) :
  match transact (New conf) os w with
  | Returns (_, w', _) => db w' = db w
  | Panics _ => False
  end.
Proof.
  destruct (net w (config.Network conf) (config.Addr conf) (timeout_of conf))
    as [e|] eqn:E.
  - unfold transact. rewrite (Begin_down _ _ _ E). reflexivity.
  - rewrite (transact_reachable _ _ _ E). destruct (unpruned os); reflexivity.
Qed.

(** X14: a transaction that calls [Unprune] never commits: whatever
    the world and the other calls, [Begin], the calls and [Commit]
    end with an error. *)
Theorem unprune_never_commits (conf : config.Storage) (os : list Op) (w : World) :
  unpruned os <> [] ->
  match transact (New conf) os w with
  | Returns (_, _, Some _) => True
  | _ => False
  end.
Proof.
  intros Hne.
  destruct (net w (config.Network conf) (config.Addr conf) (timeout_of conf))
    as [e|] eqn:E.
  - unfold transact. rewrite (Begin_down _ _ _ E). exact I.
  - rewrite (transact_reachable _ _ _ E).
    destruct (unpruned os); [congruence | exact I].
Qed.

Lemma unprune_never_commits_witness :
  unpruned ops_unprune <> []
  /\ match transact (New conf0) ops_unprune world_up with
     | Returns (_, _, Some _) => True
     | _ => False
     end.
Proof.
  assert (H : unpruned ops_unprune <> []) by discriminate.
  split; [exact H|].
  exact (unprune_never_commits conf0 ops_unprune world_up H).
Defined.

(** X15: on a server that can be dialled, a transaction whose commit
    succeeds ends closed with its connection back in the pool; one
    whose commit fails ends open, with one connection more borrowed
    than before [Begin]. *)
Theorem transaction_pool_accounting (conf : config.Storage) (os : list Op) (w : World) :
  reachable conf w ->
  match transact (New conf) os w with
  | Returns (Some tx', w', None) =>
      done tx' = true /\ closed (tx_Conn tx') = true /\ borrowed w' = borrowed w
  | Returns (Some tx', w', Some _) =>
      done tx' = false /\ closed (tx_Conn tx') = false /\ borrowed w' = S (borrowed w)
  | _ => False
  end.
Proof.
  intros Hup. rewrite (transact_reachable _ _ _ Hup).
  destruct (unpruned os); repeat split.
Qed.

Lemma transaction_pool_accounting_witness :
  reachable conf0 world_up
  /\ match transact (New conf0) ops_stubs world_up with
     | Returns (Some tx', w', None) =>
         done tx' = true /\ closed (tx_Conn tx') = true /\ borrowed w' = 0%nat
     | _ => False
     end
  /\ match transact (New conf0) ops_unprune world_up with
     | Returns (Some tx', w', Some _) =>
         done tx' = false /\ closed (tx_Conn tx') = false /\ borrowed w' = 1%nat
     | _ => False
     end.
Proof.
  split; [reflexivity|]. split.
  - exact (transaction_pool_accounting conf0 ops_stubs world_up eq_refl).
  - exact (transaction_pool_accounting conf0 ops_unprune world_up eq_refl).
Defined.

Lemma unprune_commands_map (conf : config.Storage) (ts : list storage.Torrent) :
  unprune_commands (List.map (unprune_command conf) ts).
Proof.
  induction ts as [|t ts IH]; constructor; [eauto | exact IH].
Qed.

(** X16: on a server that can be dialled, a transaction given up with
    [Rollback], whatever calls were made on it, returns nil: the
    transaction is closed, the keyspace is the one before [Begin], and
    the pool counts as many connections out as before [Begin]. *)
Theorem abandoned_transaction_is_discarded
  (conf : config.Storage) (os : list Op) (w : World) :
  reachable conf w ->
  match abandon (New conf) os w with
  | Returns (Some tx', w', None) =>
      done tx' = true
      /\ closed (tx_Conn tx') = true
      /\ db w' = db w
      /\ borrowed w' = borrowed w
  | _ => False
  end.
Proof.
  intros Hup. unfold abandon. rewrite (Begin_up _ _ Hup).
  change {| tx_conf := conf; done := false; tx_Conn := begun conf |}
    with (batch_tx conf []).
  rewrite apply_ops_batch. unfold Rollback. cbn [done batch_tx].
  rewrite close_open by reflexivity. cbn [tx_Conn tx_conf app].
  set (c := {| err := None;
               pending := {| name := "MULTI"; args := [] |}
                          :: List.map (unprune_command conf) (unpruned os);
               session := clean; closed := false;
               readTimeout := timeout_of conf; writeTimeout := timeout_of conf |}).
  destruct (Close_pool c (lend w)) as (_ & Hb & Hcl).
  destruct (Close_discards c (lend w) eq_refl) as (cs & Hdb & _).
  { left. split; [reflexivity|]. eexists. split; [reflexivity|].
    apply unprune_commands_map. }
  cbn [done tx_Conn]. auto.
Qed.

Lemma abandoned_transaction_is_discarded_witness :
  reachable conf0 world_up
  /\ match abandon (New conf0) ops_unprune world_up with
     | Returns (Some tx', w', None) =>
         done tx' = true
         /\ closed (tx_Conn tx') = true
         /\ db w' = db world_up
         /\ borrowed w' = 0%nat
     | _ => False
     end.
Proof.
  split; [reflexivity|].
  exact (abandoned_transaction_is_discarded conf0 ops_unprune world_up eq_refl).
Defined.
